(** * Somali Geo API: place search and Somalia location codes

    A shallow embedding of
    - [app/api/v1/endpoints/places.py]  (the [/places/search] endpoint),
    - [app/utils/olc_helper.py]         (Somalia-prefixed Open Location Codes),
    - [app/api/v1/endpoints/location_codes.py] (the [/locationcode] endpoints),
    together with the properties stated for them.

    Conventions.  Python [str] values are Rocq strings (sequences of 8-bit
    characters); [str.lower] and [str.upper] act on the ASCII letters.
    Python [float] coordinates are exact rationals ([Q]): comparisons are the
    exact ones and rounding is not modelled.  Python [int] is [Z].  A raised
    exception is the [Raise] branch of [result]. *)

From Stdlib Require Import ZArith QArith Qround Lqa Lia Ascii String List Bool.
From stdpp Require Import base gmap strings list.

Local Open Scope Z_scope.

(** ** Exceptions *)

(** The only exception the modelled code can meet is the [ValueError] of the
    Open Location Code package; the endpoints turn it into an HTTP 400. *)
Inductive exn : Set := ValueError.

Inductive result (A : Type) : Type :=
| Ok (a : A)
| Raise (e : exn).
Arguments Ok {A} a.
Arguments Raise {A} e.

Definition bind {A B} (r : result A) (k : A -> result B) : result B :=
  match r with
  | Ok a => k a
  | Raise e => Raise e
  end.

Definition succeeds {A} (r : result A) : Prop := exists a, r = Ok a.
Definition fails {A} (r : result A) : Prop := exists e, r = Raise e.

(** ** Python string primitives *)

Module Py.

Definition is_upper (c : ascii) : bool :=
  (65 <=? nat_of_ascii c)%nat && (nat_of_ascii c <=? 90)%nat.
Definition is_lower (c : ascii) : bool :=
  (97 <=? nat_of_ascii c)%nat && (nat_of_ascii c <=? 122)%nat.

Definition lower_char (c : ascii) : ascii :=
  if is_upper c then ascii_of_nat (nat_of_ascii c + 32) else c.
Definition upper_char (c : ascii) : ascii :=
  if is_lower c then ascii_of_nat (nat_of_ascii c - 32) else c.

(** [s.lower()] and [s.upper()] *)
Fixpoint lower (s : string) : string :=
  match s with
  | EmptyString => EmptyString
  | String c t => String (lower_char c) (lower t)
  end.
Fixpoint upper (s : string) : string :=
  match s with
  | EmptyString => EmptyString
  | String c t => String (upper_char c) (upper t)
  end.

(** [s.startswith(p)] *)
Fixpoint startswith (p s : string) : bool :=
  match p, s with
  | EmptyString, _ => true
  | String _ _, EmptyString => false
  | String a p', String b s' => Ascii.eqb a b && startswith p' s'
  end.

(** [sub in s] *)
Fixpoint contains (sub s : string) : bool :=
  startswith sub s ||
  match s with
  | EmptyString => false
  | String _ t => contains sub t
  end.

(** [s[:n]] *)
Definition slice_to (n : nat) (s : string) : string := String.substring 0 n s.

(** Truth value of a string: the empty string is false. *)
Definition truthy (s : string) : bool :=
  match s with
  | EmptyString => false
  | String _ _ => true
  end.

(** The value of an optional string when it is truthy: [None] and the
    empty string are both false. *)
Definition when_truthy (o : option string) : option string :=
  match o with
  | Some s => if truthy s then Some s else None
  | None => None
  end.

(** [s.split(sep, 1)] for a one-character separator: one piece when the
    separator does not occur, otherwise the text before its first
    occurrence and the whole text after it. *)
Fixpoint split1 (sep : ascii) (s : string) : list string :=
  match s with
  | EmptyString => [EmptyString]
  | String c t =>
      if Ascii.eqb c sep then [EmptyString; t]
      else match split1 sep t with
           | h :: r => String c h :: r
           | [] => []
           end
  end.

(** [s.count(c)] for a one-character [c] *)
Fixpoint count (c : ascii) (s : string) : nat :=
  match s with
  | EmptyString => O
  | String d t => ((if Ascii.eqb d c then 1 else 0) + count c t)%nat
  end.

End Py.

(** ** The storage collaborator: SQL text predicates and LIMIT *)

Module Sql.

(** SQL [lower()] on ASCII text. *)
Definition lower (s : string) : string := Py.lower s.

(** [s LIKE p]: ["%"] stands for any run of characters and ["_"] for any
    single character; no escape character is declared by the query. *)
Fixpoint like (p s : string) : bool :=
  match p with
  | EmptyString =>
      match s with EmptyString => true | String _ _ => false end
  | String c p' =>
      if Ascii.eqb c "%" then
        (fix any (t : string) : bool :=
           like p' t ||
           match t with
           | EmptyString => false
           | String _ t' => any t'
           end) s
      else
        match s with
        | EmptyString => false
        | String d s' => (Ascii.eqb c "_" || Ascii.eqb c d) && like p' s'
        end
  end.

(** SQLAlchemy's [column.contains(q)] is [column LIKE '%' || q || '%'];
    wildcard characters inside [q] are passed through unescaped. *)
Definition contains (column q : string) : bool :=
  like (String "%" (q +:+ "%")) column.

(** Text without LIKE wildcards. *)
Fixpoint plain (q : string) : bool :=
  match q with
  | EmptyString => true
  | String c q' => negb (Ascii.eqb c "%") && negb (Ascii.eqb c "_") && plain q'
  end.

(** [LIMIT n].  For [n < 0] the backends disagree (PostgreSQL refuses the
    query, SQLite drops the bound); the model returns no row there. *)
Definition limit {A} (n : Z) (rows : list A) : list A :=
  firstn (Z.to_nat n) rows.

End Sql.

(** ** Data model ([app/models.py]) *)

(** [Dict[str, float]], the JSON value of a centroid. *)
Abbreviation json_floats := (gmap string Q).

(** The [geometry] columns hold free-form GeoJSON and are read by none of
    the functions below; they are left out of the records. *)
Module Region.
Record t : Type := mk {
  id : Z;
  name : string;
  code : string;
  population : option Z;
  area_km2 : option Q;
}.
End Region.

Module District.
Record t : Type := mk {
  id : Z;
  name : string;
  code : string;
  region_name : string;
  population : option Z;
  aliases : option (list string);
  centroid : option json_floats;
  region_id : Z;
}.
End District.

Module PlaceSearchResult.
Record t : Type := mk {
  id : string;
  name : string;
  region : string;
  type : string;
  aliases : option (list string);
  centroid : option json_floats;
  population : option Z;
}.
End PlaceSearchResult.

Module PlacesSearchResponse.
Record t : Type := mk {
  data : list PlaceSearchResult.t;
  count : Z;
}.
End PlacesSearchResponse.

(** The tables behind the session [db], rows in retrieval order. *)
Record Database : Type := {
  district_table : list District.t;
  region_table : list Region.t;
}.

(** ** Place search ([app/api/v1/endpoints/places.py]) *)

Module Places.

(** The [select(models.District).where(or_(...)).limit(limit * 2)] query. *)
Definition select_districts (db : Database) (name_lower : string) (limit : Z)
  : list District.t :=
  Sql.limit (limit * 2)
    (List.filter
       (fun d => Sql.contains (Sql.lower (District.name d)) name_lower
                 || Sql.contains (Sql.lower (District.region_name d)) name_lower)
       (district_table db)).

(** The [select(models.Region).where(...).limit(limit - len(results))] query. *)
Definition select_regions (db : Database) (name_lower : string) (n : Z)
  : list Region.t :=
  Sql.limit n
    (List.filter
       (fun r => Sql.contains (Sql.lower (Region.name r)) name_lower)
       (region_table db)).

(** The value of [matches] once the alias check has run. *)
Definition district_matches (name_lower : string) (district : District.t) : bool :=
  let matches :=
    Py.contains name_lower (Py.lower (District.name district))
    || Py.contains name_lower (Py.lower (District.region_name district)) in
  let aliases := default [] (District.aliases district) in
  if negb matches
  then existsb (fun alias => Py.contains name_lower (Py.lower alias)) aliases
  else matches.

(** [district.code or f"SOM-{district.region_name[:3].upper()}-{district.name[:3].upper()}"] *)
Definition district_id (district : District.t) : string :=
  if Py.truthy (District.code district) then District.code district
  else "SOM-" +:+ Py.upper (Py.slice_to 3 (District.region_name district))
       +:+ "-" +:+ Py.upper (Py.slice_to 3 (District.name district)).

Definition district_result (district : District.t) : PlaceSearchResult.t :=
  {| PlaceSearchResult.id := district_id district;
     PlaceSearchResult.name := District.name district;
     PlaceSearchResult.region := District.region_name district;
     PlaceSearchResult.type := "district";
     PlaceSearchResult.aliases := District.aliases district;
     PlaceSearchResult.centroid := District.centroid district;
     PlaceSearchResult.population := District.population district |}.

Definition region_result (region : Region.t) : PlaceSearchResult.t :=
  {| PlaceSearchResult.id := Region.code region;
     PlaceSearchResult.name := Region.name region;
     PlaceSearchResult.region := Region.name region;
     PlaceSearchResult.type := "region";
     PlaceSearchResult.aliases := None;
     PlaceSearchResult.centroid := None;
     PlaceSearchResult.population := Region.population region |}.

(** The two mutable locals of [search_places]. *)
Record state : Type := {
  results : list PlaceSearchResult.t;
  seen_ids : gset string;
}.

Definition initial : state := {| results := []; seen_ids := ∅ |}.

Definition record (r : PlaceSearchResult.t) (st : state) : state :=
  {| results := results st ++ [r];
     seen_ids := seen_ids st ∪ {[ PlaceSearchResult.id r ]} |}.

Definition len (st : state) : Z := Z.of_nat (length (results st)).

(** [for district in districts: ...], leaving the loop at [break]. *)
Fixpoint scan_districts (name_lower : string) (limit : Z)
         (districts : list District.t) (st : state) : state :=
  match districts with
  | [] => st
  | district :: rest =>
      if district_matches name_lower district then
        if bool_decide (district_id district ∈ seen_ids st)
        then scan_districts name_lower limit rest st
        else
          let st' := record (district_result district) st in
          if len st' >=? limit then st'
          else scan_districts name_lower limit rest st'
      else scan_districts name_lower limit rest st
  end.

(** [for region in regions: ...] *)
Fixpoint scan_regions (regions : list Region.t) (st : state) : state :=
  match regions with
  | [] => st
  | region :: rest =>
      if bool_decide (Region.code region ∈ seen_ids st)
      then scan_regions rest st
      else scan_regions rest (record (region_result region) st)
  end.

(** The state after the district loop. *)
Definition after_districts (db : Database) (name : string) (limit : Z) : state :=
  let name_lower := Py.lower name in
  scan_districts name_lower limit (select_districts db name_lower limit) initial.

(** The rows the region query returns, when it is run. *)
Definition regions_fetched (db : Database) (name : string) (limit : Z)
  : list Region.t :=
  let st := after_districts db name limit in
  if len st <? limit
  then select_regions db (Py.lower name) (limit - len st)
  else [].

Definition search_places (db : Database) (name : string) (limit : Z)
  : PlacesSearchResponse.t :=
  let name_lower := Py.lower name in
  let st := scan_districts name_lower limit
              (select_districts db name_lower limit) initial in
  let st :=
    if len st <? limit
    then scan_regions (select_regions db name_lower (limit - len st)) st
    else st in
  {| PlacesSearchResponse.data := results st;
     PlacesSearchResponse.count := len st |}.

(** *** Specification vocabulary for the search *)

(** Deduplication by computed id in which the first occurrence wins:
    the candidates whose id is neither in [seen] nor carried by an earlier
    candidate, in their original order. *)
Fixpoint keep_first (seen : gset string) (cands : list PlaceSearchResult.t)
  : list PlaceSearchResult.t :=
  match cands with
  | [] => []
  | r :: rest =>
      if bool_decide (PlaceSearchResult.id r ∈ seen)
      then keep_first seen rest
      else r :: keep_first (seen ∪ {[ PlaceSearchResult.id r ]}) rest
  end.

(** The candidates in scan order: the fetched districts that pass the
    match test, then the fetched regions. *)
Definition district_candidates (db : Database) (name : string) (limit : Z)
  : list PlaceSearchResult.t :=
  district_result <$>
    (List.filter (district_matches (Py.lower name))
       (select_districts db (Py.lower name) limit)).

Definition candidates (db : Database) (name : string) (limit : Z)
  : list PlaceSearchResult.t :=
  district_candidates db name limit
  ++ (region_result <$> regions_fetched db name limit).

(** The ids of a list of results. *)
Definition ids (rs : list PlaceSearchResult.t) : list string :=
  PlaceSearchResult.id <$> rs.

(** The set [seen_ids] holds exactly the ids of [results]. *)
Definition seen_ok (st : state) : Prop :=
  seen_ids st = list_to_set (ids (results st)).

End Places.

(** ** Sample rows *)

(** A district that the query "beletweyne" can only reach through its
    alias. *)
Definition beledweyne : District.t :=
  District.mk 1 "Beledweyne" "SOM-HIR-BEL" "Hiiraan" None
    (Some ["Beletweyne"]) None 1.

Definition hiiraan_db : Database :=
  {| district_table := [beledweyne];
     region_table := [Region.mk 1 "Hiiraan" "SOM-HIR" None None] |}.

(** ** The Open Location Code package *)

(** [openlocationcode.CodeArea], with the attributes [decode_olc] reads. *)
Module CodeArea.
Record t : Type := mk {
  latitudeLo : Q;
  longitudeLo : Q;
  latitudeHi : Q;
  longitudeHi : Q;
  codeLength : Z;
  latitudeCenter : Q;
  longitudeCenter : Q;
}.
End CodeArea.

(** Modelled from the spec: the [openlocationcode] package, which
    [olc_helper.py] imports and which is not part of the repository.  The
    helper calls [olc.encode(lat, lon)], [olc.encode(lat, lon, code_length)]
    and [olc.decode(code)]; the optional argument of [olc_encode] is the code
    length, [None] standing for the package default. *)
Class OpenLocationCode : Type := {
  olc_encode : Q -> Q -> option Z -> result string;
  olc_decode : string -> result CodeArea.t;
}.

(** Coordinates in range: latitude in [-90, 90], longitude in [-180, 180]. *)
Definition valid_coords (lat lon : Q) : Prop :=
  (-90 <= lat /\ lat <= 90 /\ -180 <= lon /\ lon <= 180)%Q.

Definition valid_coords_b (lat lon : Q) : bool :=
  Qle_bool (-90) lat && Qle_bool lat 90
  && Qle_bool (-180) lon && Qle_bool lon 180.

(** The point lies in the cell, bounds included. *)
Definition cell_contains (area : CodeArea.t) (lat lon : Q) : Prop :=
  (CodeArea.latitudeLo area <= lat /\ lat <= CodeArea.latitudeHi area
   /\ CodeArea.longitudeLo area <= lon /\ lon <= CodeArea.longitudeHi area)%Q.

Section CodecContract.
Context `{OpenLocationCode}.

(** Modelled from the spec: "encode(lat ∈ [-90,90], lon ∈ [-180,180],
    length?) → code": inside the range the default-length encoding
    returns a code. *)
Definition encode_accepts_range : Prop :=
  forall lat lon, valid_coords lat lon -> succeeds (olc_encode lat lon None).

(** Modelled from the spec: "Fails with InvalidArgument when lat/lon are
    out of range". *)
Definition encode_rejects_out_of_range : Prop :=
  forall lat lon len,
    ~ valid_coords lat lon -> olc_encode lat lon len = Raise ValueError.

(** Modelled from the spec: "decode(encode(lat, lon)) yields a cell whose
    bounds contain (lat, lon)". *)
Definition decode_encode_contains : Prop :=
  forall lat lon code,
    valid_coords lat lon ->
    olc_encode lat lon None = Ok code ->
    exists area, olc_decode code = Ok area /\ cell_contains area lat lon.

(** Modelled from the spec: a decoded code is "a bounding cell (center +
    lo/hi bounds)": the center lies between the bounds. *)
Definition decode_center_inside : Prop :=
  forall code area,
    olc_decode code = Ok area ->
    cell_contains area (CodeArea.latitudeCenter area)
      (CodeArea.longitudeCenter area).

(** Modelled from the spec: decoding fails when the code "is not
    well-formed per the Open Location Code grammar", whose characters are
    the twenty digits, the separator "+" and the padding "0": a string
    with a ":" is refused. *)
Definition decode_rejects_colon : Prop :=
  forall code,
    Py.contains ":" code = true -> olc_decode code = Raise ValueError.

End CodecContract.

(** ** Somalia location codes ([app/utils/olc_helper.py]) *)

(** The dict built by [decode_olc]; [region_code] is [None] when the key is
    absent, which is what [decoded.get("region_code")] reads. *)
Module Decoded.
Record t : Type := mk {
  code : string;
  latitude_center : Q;
  longitude_center : Q;
  latitude_lo : Q;
  longitude_lo : Q;
  latitude_hi : Q;
  longitude_hi : Q;
  code_length : Z;
  region_code : option string;
}.

(** [result["region_code"] = region_part] *)
Definition set_region_code (region_part : string) (d : t) : t :=
  mk (code d) (latitude_center d) (longitude_center d)
     (latitude_lo d) (longitude_lo d) (latitude_hi d) (longitude_hi d)
     (code_length d) (Some region_part).
End Decoded.

(** One row of the [regions] table of [_get_region_from_coords]. *)
Module Bounds.
Record t : Type := mk {
  lat_min : Q;
  lat_max : Q;
  lon_min : Q;
  lon_max : Q;
}.

(** [lat_min <= lat <= lat_max and lon_min <= lon <= lon_max] *)
Definition holds (b : t) (lat lon : Q) : bool :=
  Qle_bool (lat_min b) lat && Qle_bool lat (lat_max b)
  && Qle_bool (lon_min b) lon && Qle_bool lon (lon_max b).

Definition Holds (b : t) (lat lon : Q) : Prop :=
  (lat_min b <= lat /\ lat <= lat_max b
   /\ lon_min b <= lon /\ lon <= lon_max b)%Q.
End Bounds.

(** The dict literal [regions], in insertion order, which is the order in
    which [regions.items()] is iterated. *)
Definition regions : list (string * Bounds.t) :=
  [ ("BNR", Bounds.mk 1.8 2.2 45.0 45.6);
    ("HRS", Bounds.mk 9.0 10.0 43.0 45.0);
    ("SHB", Bounds.mk 2.0 3.0 42.0 43.0) ]%Q.

(** [for code, bounds in table: if ...: return code], then [return None]. *)
Fixpoint first_region (table : list (string * Bounds.t)) (lat lon : Q)
  : option string :=
  match table with
  | [] => None
  | (code, bounds) :: rest =>
      if Bounds.holds bounds lat lon then Some code
      else first_region rest lat lon
  end.

Definition _get_region_from_coords (lat lon : Q) : option string :=
  first_region regions lat lon.

(** The box of a row does not hold the point. *)
Definition misses (lat lon : Q) (row : string * Bounds.t) : Prop :=
  ~ Bounds.Holds (snd row) lat lon.

Section OlcHelper.
Context `{OpenLocationCode}.

Definition generate_olc (lat lon : Q) (code_length : option Z) : result string :=
  match code_length with
  | Some n => if n =? 0 then olc_encode lat lon None
              else olc_encode lat lon (Some n)
  | None => olc_encode lat lon None
  end.

Definition decode_olc (code : string) : result Decoded.t :=
  match olc_decode code with
  | Raise e => Raise e
  | Ok area =>
      Ok {| Decoded.code := code;
            Decoded.latitude_center := CodeArea.latitudeCenter area;
            Decoded.longitude_center := CodeArea.longitudeCenter area;
            Decoded.latitude_lo := CodeArea.latitudeLo area;
            Decoded.longitude_lo := CodeArea.longitudeLo area;
            Decoded.latitude_hi := CodeArea.latitudeHi area;
            Decoded.longitude_hi := CodeArea.longitudeHi area;
            Decoded.code_length := CodeArea.codeLength area;
            Decoded.region_code := None |}
  end.

Definition generate_somalia_olc (lat lon : Q) (region_code : option string)
  : result string :=
  match generate_olc lat lon None with
  | Raise e => Raise e
  | Ok base_code =>
      match Py.when_truthy region_code with
      | Some region_code => Ok (region_code +:+ ":" +:+ base_code)
      | None =>
          match Py.when_truthy (_get_region_from_coords lat lon) with
          | Some region => Ok ("SOM-" +:+ region +:+ ":" +:+ base_code)
          | None => Ok base_code
          end
      end
  end.

(** The tuple assignment [region_part, olc_part = code.split(":", 1)]
    raises [ValueError] unless the split has two pieces. *)
Definition decode_somalia_olc (code : string) : result Decoded.t :=
  if Py.contains ":" code then
    match Py.split1 ":" code with
    | [region_part; olc_part] =>
        match decode_olc olc_part with
        | Raise e => Raise e
        | Ok result => Ok (Decoded.set_region_code region_part result)
        end
    | _ => Raise ValueError
    end
  else decode_olc code.

(** *** Vocabulary of the composite code *)

(** The part of a composite code handed to the codec: the text after the
    first ":" when there is one, the whole text otherwise. *)
Definition olc_portion (code : string) : string :=
  match Py.split1 ":" code with
  | [_; olc_part] => olc_part
  | _ => code
  end.

(** [parse(compose(lat, lon, region_code))] *)
Definition parse_composed (lat lon : Q) (region_code : option string)
  : result Decoded.t :=
  bind (generate_somalia_olc lat lon region_code) decode_somalia_olc.

End OlcHelper.

(** ** The location code endpoints ([app/api/v1/endpoints/location_codes.py]) *)

Module LocationCodeResponse.
Record t : Type := mk {
  code : string;
  latitude_center : Q;
  longitude_center : Q;
  region_code : option string;
}.
End LocationCodeResponse.

(** What the HTTP layer answers: the body, the 422 of a [Query(ge=, le=)]
    constraint that is not met, or the 400 of an [HTTPException]. *)
Inductive response (A : Type) : Type :=
| Success (body : A)
| UnprocessableEntity
| BadRequest.
Arguments Success {A} body.
Arguments UnprocessableEntity {A}.
Arguments BadRequest {A}.

Section Endpoints.
Context `{OpenLocationCode}.

Definition location_code_response (code : string) (decoded : Decoded.t)
  : LocationCodeResponse.t :=
  {| LocationCodeResponse.code := code;
     LocationCodeResponse.latitude_center := Decoded.latitude_center decoded;
     LocationCodeResponse.longitude_center := Decoded.longitude_center decoded;
     LocationCodeResponse.region_code := Decoded.region_code decoded |}.

Definition generate_location_code (lat lon : Q)
  : response LocationCodeResponse.t :=
  if negb (valid_coords_b lat lon) then UnprocessableEntity
  else
    match generate_somalia_olc lat lon None with
    | Raise _ => BadRequest
    | Ok code =>
        match decode_somalia_olc code with
        | Raise _ => BadRequest
        | Ok decoded => Success (location_code_response code decoded)
        end
    end.

Definition resolve_location_code (code : string)
  : response LocationCodeResponse.t :=
  match decode_somalia_olc code with
  | Raise _ => BadRequest
  | Ok decoded => Success (location_code_response code decoded)
  end.

End Endpoints.

(** ** A reference codec *)

(** Modelled from the spec: the geocode codec, "using the standard Open
    Location Code alphabet and algorithm", under the contract of the spec:
    coordinates outside the range and codes outside the grammar are refused
    with [ValueError].  A code is up to ten digits taken in latitude and
    longitude pairs in base 20, then up to five digits of a 5 x 4 grid, with
    "+" after the eighth digit and "0" padding in front of it.  It gives the
    contract an implementation the statements below can be run on. *)
Module StandardOlc.

Definition alphabet : list ascii :=
  list_ascii_of_string "23456789CFGHJMPQRVWX".

Definition digit_char (d : Z) : ascii := nth (Z.to_nat d) alphabet "2"%char.

Fixpoint index_of (c : ascii) (l : list ascii) (i : Z) : option Z :=
  match l with
  | [] => None
  | a :: l' => if Ascii.eqb a c then Some i else index_of c l' (i + 1)
  end.

Inductive token : Set :=
| Digit (d : Z)
| Separator
| Padding
| Other.

Definition classify (c : ascii) : token :=
  if Ascii.eqb c "+" then Separator
  else if Ascii.eqb c "0" then Padding
  else match index_of (Py.upper_char c) alphabet 0 with
       | Some d => Digit d
       | None => Other
       end.

(** Degrees are counted in units of the finest cell: 1/25000000 of a
    degree of latitude and 1/8192000 of a degree of longitude. *)
Definition lat_units : Z := 25000000.
Definition lng_units : Z := 8192000.

(** The [n] digits of [v] in the given base, most significant first. *)
Fixpoint digits_of (base : Z) (n : nat) (v : Z) : list Z :=
  match n with
  | O => []
  | S n' => digits_of base n' (v / base) ++ [v mod base]
  end.

Fixpoint interleave (xs ys : list Z) : list Z :=
  match xs, ys with
  | x :: xs', y :: ys' => x :: y :: interleave xs' ys'
  | _, _ => []
  end.

Fixpoint grid_digits (rows cols : list Z) : list Z :=
  match rows, cols with
  | r :: rows', c :: cols' => (r * 4 + c) :: grid_digits rows' cols'
  | _, _ => []
  end.

Definition chars (ds : list Z) : list ascii := map digit_char ds.

(** The digits with the separator and the padding put in. *)
Definition render (ds : list Z) : string :=
  string_of_list_ascii
    (if (length ds <? 8)%nat
     then chars ds ++ repeat "0"%char (8 - length ds) ++ ["+"%char]
     else chars (firstn 8 ds) ++ "+"%char :: chars (skipn 8 ds)).

(** The finest cell a coordinate falls in, counted from the south pole
    and from the antimeridian; the north pole and the meridian 180 are
    put in the last cell. *)
Definition lat_value (lat : Q) : Z :=
  Z.min (Qfloor ((lat + 90) * inject_Z lat_units)) (180 * lat_units - 1).
Definition lng_value (lon : Q) : Z :=
  Z.min (Qfloor ((lon + 180) * inject_Z lng_units)) (360 * lng_units - 1).

Definition encode (lat lon : Q) (codeLength : option Z) : result string :=
  let codeLength := default 10 codeLength in
  if (codeLength <? 2) || ((codeLength <? 10) && Z.odd codeLength)
  then Raise ValueError
  else if negb (valid_coords_b lat lon) then Raise ValueError
  else
    let latVal := lat_value lat in
    let lngVal := lng_value lon in
    let pairs := interleave (digits_of 20 5 (latVal / 3125))
                            (digits_of 20 5 (lngVal / 1024)) in
    let grid := grid_digits (digits_of 5 5 (latVal mod 3125))
                            (digits_of 4 5 (lngVal mod 1024)) in
    Ok (render (firstn (Z.to_nat (Z.min codeLength 15)) (pairs ++ grid))).

(** The digits of a code of the default length. *)
Definition ten_digits (lat lon : Q) : list Z :=
  interleave (digits_of 20 5 (lat_value lat / 3125))
             (digits_of 20 5 (lng_value lon / 1024)).

Fixpoint span_digits (ts : list token) : list Z * list token :=
  match ts with
  | Digit d :: ts' => let '(ds, rest) := span_digits ts' in (d :: ds, rest)
  | _ => ([], ts)
  end.

Fixpoint span_padding (ts : list token) : nat * list token :=
  match ts with
  | Padding :: ts' => let '(n, rest) := span_padding ts' in (S n, rest)
  | _ => (O, ts)
  end.

(** The digits of a well-formed full code: digits, an even run of padding
    that fills the eight places in front of the separator, the separator,
    and then no digit, or at least two when there is no padding; the first
    latitude digit stays below 9 and the first longitude digit below 18. *)
Definition full_code_digits (ts : list token) : option (list Z) :=
  let '(front, rest) := span_digits ts in
  let '(pad, rest) := span_padding rest in
  match rest with
  | Separator :: rest =>
      let '(back, rest) := span_digits rest in
      match rest, front with
      | [], lat0 :: lng0 :: _ =>
          if ((length front + pad =? 8)%nat
              && Nat.even pad
              && ((pad =? 0)%nat || (length back =? 0)%nat)
              && negb (length back =? 1)%nat
              && (lat0 <? 9) && (lng0 <? 18))
          then Some (firstn 15 (front ++ back))
          else None
      | _, _ => None
      end
  | _ => None
  end.

Fixpoint evens (ds : list Z) : list Z :=
  match ds with
  | x :: _ :: ds' => x :: evens ds'
  | _ => []
  end.

Fixpoint odds (ds : list Z) : list Z :=
  match ds with
  | _ :: y :: ds' => y :: odds ds'
  | _ => []
  end.

Definition horner (base : Z) (ds : list Z) : Z :=
  fold_left (fun acc d => acc * base + d) ds 0.

(** The size of the cell after [n] digit pairs, in ten-digit cells. *)
Definition pair_cell (n : nat) : Z :=
  match n with
  | 1%nat => 160000
  | 2%nat => 8000
  | 3%nat => 400
  | 4%nat => 20
  | _ => 1
  end.

(** [base] to the power [5 - n]: the size of the cell after [n] grid
    digits, in finest cells. *)
Definition grid_cell (base : Z) (n : nat) : Z := base ^ Z.of_nat (5 - n).

Definition degrees (units v : Z) (offset : Q) : Q :=
  (inject_Z v / inject_Z units - offset)%Q.

(** The cell with the given south-west corner and size, in finest cells. *)
Definition cell_area (lat height lng width : Z) (n : Z) : CodeArea.t :=
  let latLo := degrees lat_units lat 90 in
  let latHi := degrees lat_units (lat + height) 90 in
  let lngLo := degrees lng_units lng 180 in
  let lngHi := degrees lng_units (lng + width) 180 in
  {| CodeArea.latitudeLo := latLo;
     CodeArea.longitudeLo := lngLo;
     CodeArea.latitudeHi := latHi;
     CodeArea.longitudeHi := lngHi;
     CodeArea.codeLength := n;
     CodeArea.latitudeCenter := ((latLo + latHi) / 2)%Q;
     CodeArea.longitudeCenter := ((lngLo + lngHi) / 2)%Q |}.

Definition area_of (ds : list Z) : CodeArea.t :=
  let pairs := firstn 10 ds in
  let grid := skipn 10 ds in
  let np := Nat.div2 (length pairs) in
  let ng := length grid in
  let rows := map (fun d => d / 4) grid in
  let cols := map (fun d => d mod 4) grid in
  let lat := horner 20 (evens pairs) * pair_cell np * 3125
             + horner 5 rows * grid_cell 5 ng in
  let lng := horner 20 (odds pairs) * pair_cell np * 1024
             + horner 4 cols * grid_cell 4 ng in
  let height := match ng with O => pair_cell np * 3125 | _ => grid_cell 5 ng end in
  let width := match ng with O => pair_cell np * 1024 | _ => grid_cell 4 ng end in
  cell_area lat height lng width (Z.of_nat (length ds)).

Definition decode (code : string) : result CodeArea.t :=
  match full_code_digits (map classify (list_ascii_of_string code)) with
  | Some ds => Ok (area_of ds)
  | None => Raise ValueError
  end.

#[export] Instance codec : OpenLocationCode :=
  {| olc_encode := encode; olc_decode := decode |}.

End StandardOlc.

(** ** The encoding of the package *)

(** [openlocationcode.encode] refuses no coordinates: it first brings them
    into range with [clipLatitude] and [normalizeLongitude], and then
    encodes the point it has got.  The package is not part of the
    repository; the two functions are written after the package's own, and
    the digits are those of the reference codec, which gives a point in
    range the code the package gives it, the meridian 180 apart: the
    package turns it into the meridian -180. *)
Module PackageOlc.

(** [min(90, max(-90, latitude))] *)
Definition clipLatitude (latitude : Q) : Q :=
  let raised := if Qle_bool latitude (-90) then (-90)%Q else latitude in
  if Qle_bool 90 raised then 90%Q else raised.

(** [while longitude < -180: longitude = longitude + 360], for at most
    [n] rounds. *)
Fixpoint add_turns (n : nat) (longitude : Q) : Q :=
  match n with
  | O => longitude
  | S n' =>
      if Qle_bool (-180) longitude then longitude
      else add_turns n' (longitude + 360)%Q
  end.

(** [while longitude >= 180: longitude = longitude - 360], for at most
    [n] rounds. *)
Fixpoint drop_turns (n : nat) (longitude : Q) : Q :=
  match n with
  | O => longitude
  | S n' =>
      if Qle_bool 180 longitude then drop_turns n' (longitude - 360)%Q
      else longitude
  end.

(** The whole turns between the longitude and the range: neither loop
    runs for more rounds. *)
Definition turns (longitude : Q) : nat :=
  Z.to_nat (Z.abs (Qfloor ((longitude + 180) / 360)%Q)).

Definition normalizeLongitude (longitude : Q) : Q :=
  drop_turns (turns longitude) (add_turns (turns longitude) longitude).

(** [latitude = clipLatitude(latitude)],
    [longitude = normalizeLongitude(longitude)], and then the digits. *)
Definition encode (latitude longitude : Q) (codeLength : option Z)
  : result string :=
  StandardOlc.encode (clipLatitude latitude) (normalizeLongitude longitude)
    codeLength.

Definition decode (code : string) : result CodeArea.t :=
  StandardOlc.decode code.

#[export] Instance codec : OpenLocationCode :=
  {| olc_encode := encode; olc_decode := decode |}.

End PackageOlc.

(** ** Cell size of the codec *)

Section CodecCells.
Context `{OpenLocationCode}.

(** Modelled from the spec: "a center within the codec's cell tolerance":
    the cells of the codes of default length are at most [delta] degrees
    high and wide. *)
Definition default_cells_within (delta : Q) : Prop :=
  forall lat lon code area,
    valid_coords lat lon ->
    olc_encode lat lon None = Ok code ->
    olc_decode code = Ok area ->
    (CodeArea.latitudeHi area - CodeArea.latitudeLo area <= delta
     /\ CodeArea.longitudeHi area - CodeArea.longitudeLo area <= delta)%Q.

End CodecCells.

(** ** Rows that carry the query in a name *)

(** [name_lower in district.name.lower() or name_lower in
    district.region_name.lower()] *)
Definition district_has_query (name_lower : string) (district : District.t) : bool :=
  Py.contains name_lower (Py.lower (District.name district))
  || Py.contains name_lower (Py.lower (District.region_name district)).

Definition region_has_query (name_lower : string) (region : Region.t) : bool :=
  Py.contains name_lower (Py.lower (Region.name region)).

(** ** What the generate endpoint reports *)

(** The code and the region code the generate endpoint reports for the
    point, [base] being the code of the codec. *)
Definition generated_code (lat lon : Q) (base : string) : string :=
  match _get_region_from_coords lat lon with
  | Some region => "SOM-" +:+ region +:+ ":" +:+ base
  | None => base
  end.

Definition generated_region_code (lat lon : Q) : option string :=
  match _get_region_from_coords lat lon with
  | Some region => Some ("SOM-" +:+ region)
  | None => None
  end.

(** ** Listing endpoints ([regions.py], [districts.py], [transport.py]) *)

From stdpp Require Import pretty.

Local Open Scope Z_scope.

Module PyText.

(** [sep.join(parts)] *)
Fixpoint join (sep : string) (parts : list string) : string :=
  match parts with
  | [] => ""
  | [part] => part
  | part :: rest => part +:+ sep +:+ join sep rest
  end.

End PyText.

Module SqlPage.

(** [OFFSET n].  As for [LIMIT], the backends disagree on [n < 0]; the
    model skips nothing there. *)
Definition offset {A} (n : Z) (rows : list A) : list A :=
  skipn (Z.to_nat n) rows.

(** [query.offset(skip).limit(limit)] *)
Definition page {A} (skip limit : Z) (rows : list A) : list A :=
  Sql.limit limit (offset skip rows).

End SqlPage.

(** What a [/{id}] endpoint answers: the row, or the 404 with its detail. *)
Inductive lookup (A : Type) : Type :=
| Found (row : A)
| NotFound (detail : string).
Arguments Found {A} row.
Arguments NotFound {A} detail.

(** [[str(r) for r in available[:10]]] joined with [", "] *)
Definition available_ids (ids : list Z) : string :=
  PyText.join ", " (pretty <$> firstn 10 ids).

Module RegionsPublic.
Record t : Type := mk {
  data : list Region.t;
  count : Z;
}.
End RegionsPublic.

Module Regions.

Definition read_regions (db : Database) (skip limit : Z) : RegionsPublic.t :=
  {| RegionsPublic.data := SqlPage.page skip limit (region_table db);
     RegionsPublic.count := Z.of_nat (length (region_table db)) |}.

(** [db.get(models.Region, region_id)]: the row with that primary key. *)
Definition get (db : Database) (region_id : Z) : option Region.t :=
  List.find (fun r => Region.id r =? region_id) (region_table db).

Definition read_region (db : Database) (region_id : Z) : lookup Region.t :=
  match get db region_id with
  | Some region => Found region
  | None =>
      NotFound ("Region '" +:+ pretty region_id
                +:+ "' not found. Available region IDs: "
                +:+ available_ids (Region.id <$> region_table db))
  end.

End Regions.

Module DistrictsPublic.
Record t : Type := mk {
  data : list District.t;
  count : Z;
}.
End DistrictsPublic.

Module Districts.

(** [if region: query = query.where(models.District.region_name == region)] *)
Definition where_region (region : option string) (rows : list District.t)
  : list District.t :=
  match Py.when_truthy region with
  | Some region =>
      List.filter (fun d => String.eqb (District.region_name d) region) rows
  | None => rows
  end.

Definition read_districts (db : Database) (skip limit : Z) (region : option string)
  : DistrictsPublic.t :=
  {| DistrictsPublic.data :=
       SqlPage.page skip limit (where_region region (district_table db));
     DistrictsPublic.count :=
       Z.of_nat (length (where_region region (district_table db))) |}.

Definition get (db : Database) (district_id : Z) : option District.t :=
  List.find (fun d => District.id d =? district_id) (district_table db).

Definition read_district (db : Database) (district_id : Z) : lookup District.t :=
  match get db district_id with
  | Some district => Found district
  | None =>
      NotFound ("District '" +:+ pretty district_id
                +:+ "' not found. Available district IDs: "
                +:+ available_ids (District.id <$> district_table db))
  end.

End Districts.

Module Airport.
Record t : Type := mk {
  id : Z;
  name : string;
  iata_code : option string;
  icao_code : option string;
  type : string;
  latitude : Q;
  longitude : Q;
  region : string;
}.
End Airport.

Module AirportsPublic.
Record t : Type := mk {
  data : list Airport.t;
  count : Z;
}.
End AirportsPublic.

Module Transport.

(** [type.lower() not in ['international', 'domestic']] *)
Definition bad_type (type : string) : bool :=
  negb (String.eqb (Py.lower type) "international"
        || String.eqb (Py.lower type) "domestic").

(** [if type: query = query.where(models.Airport.type == type.lower())] *)
Definition where_type (type : option string) (rows : list Airport.t)
  : list Airport.t :=
  match Py.when_truthy type with
  | Some type =>
      List.filter (fun a => String.eqb (Airport.type a) (Py.lower type)) rows
  | None => rows
  end.

(** The airports table comes as the list of its rows; the 400 is raised
    before any query runs. *)
Definition read_airports (airports : list Airport.t) (skip limit : Z)
           (type : option string) : response AirportsPublic.t :=
  match Py.when_truthy type with
  | Some t =>
      if bad_type t then BadRequest
      else Success
             {| AirportsPublic.data :=
                  SqlPage.page skip limit (where_type type airports);
                AirportsPublic.count :=
                  Z.of_nat (length (where_type type airports)) |}
  | None =>
      Success
        {| AirportsPublic.data :=
             SqlPage.page skip limit (where_type type airports);
           AirportsPublic.count :=
             Z.of_nat (length (where_type type airports)) |}
  end.

End Transport.

(** ** The loader and the clean-up scripts *)

(** The property dicts of the GeoJSON features, with values of any type. *)
Abbreviation props V := (gmap string V).

(** [scripts/load_geodata.py] *)
Module LoadGeodata.

(** [for variation in field_variations: if variation in props: return
    props[variation]], then [return default]. *)
Fixpoint normalize_field {V} (props : props V) (field_variations : list string)
         (default : V) : V :=
  match field_variations with
  | [] => default
  | variation :: rest =>
      match props !! variation with
      | Some value => value
      | None => normalize_field props rest default
      end
  end.

(** [(1.5 <= lat <= 11.5) and (41.0 <= lon <= 51.5)] *)
Definition is_in_somalia (lat lon : Q) : bool :=
  (Qle_bool 1.5 lat && Qle_bool lat 11.5)
  && (Qle_bool 41.0 lon && Qle_bool lon 51.5).

(** [f"SOM-{name[:3].upper()}" if len(name) >= 3 else f"SOM-{name.upper()}"],
    the code [load_regions] gives a region that comes without one, and
    [load_districts] gives a placeholder region. *)
Definition generated_region_code (name : string) : string :=
  if (3 <=? String.length name)%nat
  then "SOM-" +:+ Py.upper (Py.slice_to 3 name)
  else "SOM-" +:+ Py.upper name.

(** [f"SOM-{region_name[:3].upper()}-{name[:3].upper()}" if len(name) >= 3
    else f"SOM-{region_name[:3].upper()}-{name.upper()}"] *)
Definition generated_district_code (name region_name : string) : string :=
  if (3 <=? String.length name)%nat
  then "SOM-" +:+ Py.upper (Py.slice_to 3 region_name)
       +:+ "-" +:+ Py.upper (Py.slice_to 3 name)
  else "SOM-" +:+ Py.upper (Py.slice_to 3 region_name)
       +:+ "-" +:+ Py.upper name.

(** The code [load_districts] stores, for properties that are strings
    ([None]: the key is absent or null):
    [if not code and name and region_name: code = ...]. *)
Definition district_code (code name region_name : option string) : option string :=
  match Py.when_truthy code, Py.when_truthy name, Py.when_truthy region_name with
  | None, Some name, Some region_name =>
      Some (generated_district_code name region_name)
  | _, _, _ => code
  end.

(** [if not name: continue] and [if not region_name: continue] *)
Definition district_is_loaded (name region_name : option string) : bool :=
  match Py.when_truthy name, Py.when_truthy region_name with
  | Some _, Some _ => true
  | _, _ => false
  end.

End LoadGeodata.

(** [scripts/filter_somalia_data.py] *)
Module FilterSomaliaData.

Definition SOMALIA_LAT_MIN : Q := -1.646.
Definition SOMALIA_LAT_MAX : Q := 12.0.
Definition SOMALIA_LON_MIN : Q := 40.993.
Definition SOMALIA_LON_MAX : Q := 51.417.

Definition is_in_somalia (lat lon : Q) : bool :=
  (Qle_bool SOMALIA_LAT_MIN lat && Qle_bool lat SOMALIA_LAT_MAX)
  && (Qle_bool SOMALIA_LON_MIN lon && Qle_bool lon SOMALIA_LON_MAX).

(** [db.delete(airport)]: the row with that primary key leaves the table. *)
Definition delete (airport : Airport.t) (table : list Airport.t) : list Airport.t :=
  List.filter (fun a => negb (Airport.id a =? Airport.id airport)) table.

(** [is_in_somalia(airport.latitude, airport.longitude)] *)
Definition stays (airport : Airport.t) : bool :=
  is_in_somalia (Airport.latitude airport) (Airport.longitude airport).

(** The loop of [filter_airports] over the rows read at the start; the
    state is the table and the counter [removed]. *)
Fixpoint filter_loop (airports : list Airport.t) (st : list Airport.t * Z)
  : list Airport.t * Z :=
  match airports with
  | [] => st
  | airport :: rest =>
      if negb (stays airport)
      then filter_loop rest (delete airport (fst st), snd st + 1)
      else filter_loop rest st
  end.

(** The table after the run, and the value returned ([remaining]). *)
Definition filter_airports (table : list Airport.t) : list Airport.t * Z :=
  let airports := table in
  let total := Z.of_nat (length airports) in
  let '(table, removed) := filter_loop airports (table, 0) in
  (table, total - removed).

End FilterSomaliaData.

(** [scripts/clean_airports.py] *)
Module CleanAirports.

Definition SOMALIA_LAT_MIN : Q := 1.5.
Definition SOMALIA_LAT_MAX : Q := 11.5.
Definition SOMALIA_LON_MIN : Q := 41.0.
Definition SOMALIA_LON_MAX : Q := 51.5.

Definition is_in_somalia_strict (lat lon : Q) : bool :=
  (Qle_bool SOMALIA_LAT_MIN lat && Qle_bool lat SOMALIA_LAT_MAX)
  && (Qle_bool SOMALIA_LON_MIN lon && Qle_bool lon SOMALIA_LON_MAX).

End CleanAirports.

(** ** More Python string methods, on ASCII text *)

Module PyStr.

(** [c.isspace()] *)
Definition is_space (c : ascii) : bool :=
  let n := nat_of_ascii c in
  ((9 <=? n)%nat && (n <=? 13)%nat)
  || ((28 <=? n)%nat && (n <=? 32)%nat).

Definition is_cased (c : ascii) : bool := Py.is_upper c || Py.is_lower c.

(** [s.isascii()] *)
Fixpoint isascii (s : string) : bool :=
  match s with
  | EmptyString => true
  | String c rest => (nat_of_ascii c <? 128)%nat && isascii rest
  end.

Fixpoint lstrip (s : string) : string :=
  match s with
  | EmptyString => EmptyString
  | String c rest => if is_space c then lstrip rest else s
  end.

Fixpoint rstrip (s : string) : string :=
  match s with
  | EmptyString => EmptyString
  | String c rest =>
      match rstrip rest with
      | EmptyString => if is_space c then EmptyString else String c EmptyString
      | kept => String c kept
      end
  end.

(** [s.strip()] *)
Definition strip (s : string) : string := rstrip (lstrip s).

(** The loop of [s.title()]: a letter after a letter is lowered, any other
    letter is raised. *)
Fixpoint title_from (previous_is_cased : bool) (s : string) : string :=
  match s with
  | EmptyString => EmptyString
  | String c rest =>
      String (if previous_is_cased then Py.lower_char c else Py.upper_char c)
             (title_from (is_cased c) rest)
  end.

(** [s.title()] *)
Definition title (s : string) : string := title_from false s.

End PyStr.

(** [scripts/download_real_data.py] *)
Module DownloadRealData.

Definition REGION_NAME_MAPPINGS : gmap string string :=
  list_to_map
    [ ("banadir", "Banadir");
      ("benadir", "Banadir");
      ("banaadir", "Banadir");
      ("hiiraan", "Hiiraan");
      ("hiiran", "Hiiraan");
      ("hirshabelle", "Hirshabelle");
      ("shabelle", "Shabelle");
      ("middle shabelle", "Shabelle");
      ("lower shabelle", "Lower Shabelle");
      ("jubaland", "Jubaland");
      ("lower juba", "Jubaland");
      ("middle juba", "Jubaland");
      ("somaliland", "Somaliland");
      ("puntland", "Puntland");
      ("galmudug", "Galmudug");
      ("south west", "South West");
      ("southwest", "South West") ].

(** [REGION_NAME_MAPPINGS.get(name_lower, name.title())] *)
Definition normalize_region_name (name : string) : string :=
  let name_lower := PyStr.strip (Py.lower name) in
  default (PyStr.title name) (REGION_NAME_MAPPINGS !! name_lower).

Definition code_mappings : gmap string string :=
  list_to_map
    [ ("Banadir", "SOM-BNR");
      ("Hiiraan", "SOM-HRS");
      ("Hirshabelle", "SOM-HSH");
      ("Shabelle", "SOM-SHB");
      ("Lower Shabelle", "SOM-LSH");
      ("Jubaland", "SOM-JBL");
      ("Somaliland", "SOM-SML");
      ("Puntland", "SOM-PTL");
      ("Galmudug", "SOM-GLD");
      ("South West", "SOM-SWS") ].

(** [code_mappings.get(name, f"SOM-{name[:3].upper()}")] *)
Definition generate_region_code (name : string) : string :=
  default ("SOM-" +:+ Py.upper (Py.slice_to 3 name)) (code_mappings !! name).

End DownloadRealData.

(** * Properties of the text predicates *)

Section TextFacts.

Lemma like_percent s : Sql.like "%" s = true.
Proof. induction s as [|c s IH]; simpl in *; [reflexivity|exact IH]. Qed.

(** On wildcard-free text, [q || '%'] matches the strings that start
    with [q]. *)
Lemma like_plain_prefix q s :
  Sql.plain q = true -> Sql.like (q +:+ "%") s = Py.startswith q s.
Proof.
  revert s. induction q as [|c q IH]; intros s Hq.
  - apply like_percent.
  - simpl in Hq. apply andb_true_iff in Hq as [Hc Hq].
    apply andb_true_iff in Hc as [Hpc Hus].
    apply negb_true_iff in Hpc, Hus.
    change (String c q +:+ "%") with (String c (q +:+ "%")).
    simpl. rewrite Hpc, Hus. destruct s as [|d s]; [reflexivity|].
    simpl. by rewrite IH.
Qed.

(** On wildcard-free text the SQL filter and Python's [in] agree. *)
Lemma sql_contains_plain column q :
  Sql.plain q = true -> Sql.contains column q = Py.contains q column.
Proof.
  intros Hq. unfold Sql.contains.
  induction column as [|c s IH].
  - simpl. rewrite like_plain_prefix by assumption. by rewrite orb_false_r.
  - simpl in *. rewrite like_plain_prefix by assumption.
    destruct q as [|a q]; [reflexivity|].
    f_equal. exact IH.
Qed.

Lemma split1_found sep pre post :
  Py.count sep pre = O ->
  Py.split1 sep (pre +:+ String sep post) = [pre; post].
Proof.
  induction pre as [|c pre IH]; simpl.
  - by rewrite Ascii.eqb_refl.
  - destruct (Ascii.eqb c sep); [discriminate|].
    simpl. intros H. by rewrite IH.
Qed.

Lemma split1_absent sep s : Py.count sep s = O -> Py.split1 sep s = [s].
Proof.
  induction s as [|c s IH]; simpl; [reflexivity|].
  destruct (Ascii.eqb c sep); [discriminate|]. simpl. intros H. by rewrite IH.
Qed.

Lemma contains_char_count sep s :
  Py.contains (String sep "") s = negb (Nat.eqb (Py.count sep s) 0).
Proof.
  induction s as [|c s IH]; simpl; [reflexivity|].
  rewrite IH, (Ascii.eqb_sym sep c).
  destruct (Ascii.eqb c sep); simpl; [|reflexivity].
  by destruct s.
Qed.

(** A string with an occurrence of [sep] splits at the first one. *)
Lemma first_occurrence sep s :
  Py.count sep s <> O ->
  exists pre post, s = pre +:+ String sep post /\ Py.count sep pre = O.
Proof.
  induction s as [|c s IH]; simpl; [congruence|].
  destruct (Ascii.eqb_spec c sep) as [->|Hne].
  - intros _. by exists "", s.
  - simpl. intros (pre & post & -> & Hpre)%IH.
    exists (String c pre), post. split; [reflexivity|].
    simpl. destruct (Ascii.eqb_spec c sep); [contradiction|]. exact Hpre.
Qed.

Lemma count_app sep s t :
  Py.count sep (s +:+ t) = (Py.count sep s + Py.count sep t)%nat.
Proof. induction s as [|c s IH]; simpl; [reflexivity|]. rewrite IH. lia. Qed.

End TextFacts.

(** * The reference codec meets the contract *)

Section StandardOlcFacts.
Import StandardOlc.

Lemma valid_coords_b_spec lat lon :
  valid_coords_b lat lon = true <-> valid_coords lat lon.
Proof.
  unfold valid_coords_b, valid_coords.
  rewrite !andb_true_iff, !Qle_bool_iff. tauto.
Qed.

Lemma classify_digit_char d : 0 <= d < 20 -> classify (digit_char d) = Digit d.
Proof.
  intros Hd.
  assert (forallb (fun n => match classify (digit_char (Z.of_nat n)) with
                            | Digit e => e =? Z.of_nat n
                            | _ => false
                            end) (seq 0 20) = true) as Hall
    by (vm_compute; reflexivity).
  rewrite forallb_forall in Hall.
  specialize (Hall (Z.to_nat d)). rewrite Z2Nat.id in Hall by lia.
  assert (In (Z.to_nat d) (seq 0 20)) as Hin by (apply in_seq; lia).
  specialize (Hall Hin).
  destruct (classify (digit_char d)); try discriminate Hall.
  f_equal. by apply Z.eqb_eq.
Qed.

Lemma span_digits_spec ts ds rest :
  span_digits ts = (ds, rest) -> ts = map Digit ds ++ rest.
Proof.
  revert ds rest. induction ts as [|t ts IH]; intros ds rest; simpl.
  - intros [= <- <-]. reflexivity.
  - destruct t; try (intros [= <- <-]; reflexivity).
    destruct (span_digits ts) as [ds' rest'].
    intros [= <- <-]. simpl. f_equal. by apply IH.
Qed.

Lemma span_padding_spec ts n rest :
  span_padding ts = (n, rest) -> ts = repeat Padding n ++ rest.
Proof.
  revert n rest. induction ts as [|t ts IH]; intros n rest; simpl.
  - intros [= <- <-]. reflexivity.
  - destruct t; try (intros [= <- <-]; reflexivity).
    destruct (span_padding ts) as [n' rest'].
    intros [= <- <-]. simpl. f_equal. by apply IH.
Qed.

(** A token sequence that parses is made of digits, padding and one
    separator. *)
Lemma full_code_digits_tokens ts ds :
  full_code_digits ts = Some ds -> ~ In Other ts.
Proof.
  unfold full_code_digits.
  destruct (span_digits ts) as [front r1] eqn:H1.
  destruct (span_padding r1) as [pad r2] eqn:H2.
  destruct r2 as [|[] r3]; try discriminate.
  destruct (span_digits r3) as [back r4] eqn:H3.
  destruct r4; [|discriminate]. intros _.
  apply span_digits_spec in H1, H3. apply span_padding_spec in H2.
  subst. rewrite app_nil_r.
  rewrite !in_app_iff. simpl. rewrite !in_map_iff.
  intros [(x & Hx & _)|[Hp|[Hs|(x & Hx & _)]]]; try discriminate.
  apply repeat_spec in Hp. discriminate.
Qed.

Lemma classify_colon : classify ":" = Other.
Proof. reflexivity. Qed.

Lemma contains_colon_In code :
  Py.contains ":" code = true -> In ":"%char (list_ascii_of_string code).
Proof.
  induction code as [|c s IH]; cbn -[Ascii.eqb]; [done|].
  destruct (Ascii.eqb_spec ":" c) as [<-|Hne].
  - intros _. by left.
  - cbn. intros H. right. by apply IH.
Qed.

Lemma standard_rejects_colon : decode_rejects_colon.
Proof.
  intros code Hc. simpl. unfold decode.
  destruct (full_code_digits _) as [ds|] eqn:Hp; [|reflexivity].
  exfalso. apply full_code_digits_tokens in Hp. apply Hp.
  rewrite <- classify_colon. apply in_map. by apply contains_colon_In.
Qed.

Lemma standard_rejects_out_of_range : encode_rejects_out_of_range.
Proof.
  intros lat lon len Hout. simpl. unfold encode.
  destruct (_ || _); [reflexivity|].
  destruct (valid_coords_b lat lon) eqn:Hv; [|reflexivity].
  apply valid_coords_b_spec in Hv. contradiction.
Qed.

(** ** Encoding at the default length *)

Lemma encode_default lat lon :
  valid_coords lat lon ->
  encode lat lon None = Ok (render (ten_digits lat lon)).
Proof.
  intros Hv. apply valid_coords_b_spec in Hv.
  unfold encode. rewrite Hv.
  change (default 10 None) with 10.
  change ((10 <? 2) || (10 <? 10) && Z.odd 10) with false.
  change (Z.to_nat (Z.min 10 15)) with 10%nat.
  reflexivity.
Qed.

Lemma standard_accepts_range : encode_accepts_range.
Proof.
  intros lat lon Hv. eexists. simpl. by apply encode_default.
Qed.

Lemma Qfloor_lower n x : (inject_Z n <= x)%Q -> n <= Qfloor x.
Proof. intros H. rewrite <- (Qfloor_Z n). by apply Qfloor_resp_le. Qed.

Lemma Qfloor_upper n x : (x < inject_Z n)%Q -> Qfloor x < n.
Proof.
  intros H. rewrite Zlt_Qlt. eapply Qle_lt_trans; [apply Qfloor_le|exact H].
Qed.

Lemma lat_value_range lat :
  (-90 <= lat)%Q -> 0 <= lat_value lat < 4500000000.
Proof.
  intros Hlo. unfold lat_value, lat_units.
  assert (0 <= Qfloor ((lat + 90) * inject_Z 25000000)).
  { apply Qfloor_lower. change (inject_Z 0) with 0%Q.
    change (inject_Z 25000000) with 25000000%Q. lra. }
  lia.
Qed.

Lemma lng_value_range lon :
  (-180 <= lon)%Q -> 0 <= lng_value lon < 2949120000.
Proof.
  intros Hlo. unfold lng_value, lng_units.
  assert (0 <= Qfloor ((lon + 180) * inject_Z 8192000)).
  { apply Qfloor_lower. change (inject_Z 0) with 0%Q.
    change (inject_Z 8192000) with 8192000%Q. lra. }
  lia.
Qed.

(** ** Digits and their value *)

Lemma horner_digits v :
  0 <= v < 3200000 -> horner 20 (digits_of 20 5 v) = v.
Proof.
  intros Hv. cbn [digits_of app horner fold_left].
  Z.div_mod_to_equations. lia.
Qed.

Lemma digits_of_length base n v : length (digits_of base n v) = n.
Proof.
  revert v. induction n as [|n IH]; intros v; simpl; [reflexivity|].
  rewrite length_app, IH. simpl. lia.
Qed.

Lemma digits_of_range base n v :
  0 < base -> Forall (fun d => 0 <= d < base) (digits_of base n v).
Proof.
  intros Hb. revert v. induction n as [|n IH]; intros v; simpl.
  - constructor.
  - apply Forall_app. split; [apply IH|].
    constructor; [|constructor]. by apply Z.mod_pos_bound.
Qed.

Lemma evens_interleave xs ys :
  length xs = length ys -> evens (interleave xs ys) = xs.
Proof.
  revert ys. induction xs as [|x xs IH]; intros [|y ys]; simpl;
    try discriminate; [reflexivity|].
  intros [= Hl]. by rewrite IH.
Qed.

Lemma odds_interleave xs ys :
  length xs = length ys -> odds (interleave xs ys) = ys.
Proof.
  revert ys. induction xs as [|x xs IH]; intros [|y ys]; simpl;
    try discriminate; [reflexivity|].
  intros [= Hl]. by rewrite IH.
Qed.

Lemma interleave_length xs ys :
  length xs = length ys -> length (interleave xs ys) = (2 * length xs)%nat.
Proof.
  revert ys. induction xs as [|x xs IH]; intros [|y ys]; simpl;
    try discriminate; [reflexivity|].
  intros [= Hl]. rewrite IH by assumption. lia.
Qed.

(** ** Decoding what was encoded *)

Lemma area_of_ten a b :
  0 <= a < 3200000 -> 0 <= b < 3200000 ->
  area_of (interleave (digits_of 20 5 a) (digits_of 20 5 b))
  = cell_area (a * 3125) 3125 (b * 1024) 1024 10.
Proof.
  intros Ha Hb. unfold area_of.
  assert (length (interleave (digits_of 20 5 a) (digits_of 20 5 b)) = 10%nat)
    as Hlen by (rewrite interleave_length; rewrite !digits_of_length; reflexivity).
  rewrite firstn_all2 by (rewrite Hlen; lia).
  rewrite skipn_all2 by (rewrite Hlen; lia).
  rewrite Hlen, evens_interleave, odds_interleave
    by (rewrite !digits_of_length; reflexivity).
  rewrite !horner_digits by assumption.
  cbn [length map Nat.div2 pair_cell].
  change (horner 5 []) with 0. change (horner 4 []) with 0.
  change (Z.of_nat 10) with 10.
  f_equal; lia.
Qed.

Lemma decode_render_ten a b :
  0 <= a < 1440000 -> 0 <= b < 2880000 ->
  decode (render (interleave (digits_of 20 5 a) (digits_of 20 5 b)))
  = Ok (area_of (interleave (digits_of 20 5 a) (digits_of 20 5 b))).
Proof.
  intros Ha Hb. unfold decode, render.
  rewrite list_ascii_of_string_of_list_ascii.
  cbn [digits_of interleave app length Nat.ltb Nat.leb firstn skipn chars map].
  rewrite !classify_digit_char by (apply Z.mod_pos_bound; lia).
  change (classify "+") with Separator.
  cbn [full_code_digits span_digits span_padding length Nat.even Nat.eqb
       Nat.add app firstn andb orb negb].
  assert ((((((a / 20) / 20) / 20) / 20) mod 20 <? 9) = true) as ->
    by (apply Z.ltb_lt; Z.div_mod_to_equations; lia).
  assert ((((((b / 20) / 20) / 20) / 20) mod 20 <? 18) = true) as ->
    by (apply Z.ltb_lt; Z.div_mod_to_equations; lia).
  reflexivity.
Qed.

Lemma lat_cell_contains lat :
  (-90 <= lat)%Q -> (lat <= 90)%Q ->
  (degrees lat_units (lat_value lat / 3125 * 3125) 90 <= lat
   /\ lat <= degrees lat_units (lat_value lat / 3125 * 3125 + 3125) 90)%Q.
Proof.
  intros Hlo Hhi. unfold degrees, lat_units, Qdiv.
  change (/ inject_Z 25000000)%Q with (1 # 25000000)%Q.
  pose proof (Qfloor_le ((lat + 90) * 25000000)) as Hfl.
  pose proof (Qlt_floor ((lat + 90) * 25000000)) as Hfu.
  set (f := Qfloor ((lat + 90) * 25000000)) in *.
  assert (lat_value lat = Z.min f 4499999999) as Hv by reflexivity.
  set (a := lat_value lat / 3125).
  assert (a * 3125 <= lat_value lat < a * 3125 + 3125) as Ha
    by (unfold a; Z.div_mod_to_equations; lia).
  assert (4499999999 < f -> a * 3125 + 3125 = 4500000000) as Htop
    by (intros Hf; unfold a; rewrite Hv; Z.div_mod_to_equations; lia).
  clearbody a f.
  split.
  - assert (inject_Z (a * 3125) <= inject_Z f)%Q as H1
      by (rewrite <- Zle_Qle; lia).
    lra.
  - destruct (Z.le_gt_cases f 4499999999) as [Hf|Hf].
    + assert (inject_Z (f + 1) <= inject_Z (a * 3125 + 3125))%Q as H1
        by (rewrite <- Zle_Qle; lia).
      lra.
    + rewrite (Htop Hf).
      change (inject_Z 4500000000) with 4500000000%Q. lra.
Qed.

Lemma lng_cell_contains lon :
  (-180 <= lon)%Q -> (lon <= 180)%Q ->
  (degrees lng_units (lng_value lon / 1024 * 1024) 180 <= lon
   /\ lon <= degrees lng_units (lng_value lon / 1024 * 1024 + 1024) 180)%Q.
Proof.
  intros Hlo Hhi. unfold degrees, lng_units, Qdiv.
  change (/ inject_Z 8192000)%Q with (1 # 8192000)%Q.
  pose proof (Qfloor_le ((lon + 180) * 8192000)) as Hfl.
  pose proof (Qlt_floor ((lon + 180) * 8192000)) as Hfu.
  set (f := Qfloor ((lon + 180) * 8192000)) in *.
  assert (lng_value lon = Z.min f 2949119999) as Hv by reflexivity.
  set (b := lng_value lon / 1024).
  assert (b * 1024 <= lng_value lon < b * 1024 + 1024) as Hb
    by (unfold b; Z.div_mod_to_equations; lia).
  assert (2949119999 < f -> b * 1024 + 1024 = 2949120000) as Htop
    by (intros Hf; unfold b; rewrite Hv; Z.div_mod_to_equations; lia).
  clearbody b f.
  split.
  - assert (inject_Z (b * 1024) <= inject_Z f)%Q as H1
      by (rewrite <- Zle_Qle; lia).
    lra.
  - destruct (Z.le_gt_cases f 2949119999) as [Hf|Hf].
    + assert (inject_Z (f + 1) <= inject_Z (b * 1024 + 1024))%Q as H1
        by (rewrite <- Zle_Qle; lia).
      lra.
    + rewrite (Htop Hf).
      change (inject_Z 2949120000) with 2949120000%Q. lra.
Qed.

Lemma standard_decode_encode : decode_encode_contains.
Proof.
  intros lat lon code Hv Henc. simpl in *.
  rewrite (encode_default _ _ Hv) in Henc. injection Henc as <-.
  destruct Hv as (Hlat1 & Hlat2 & Hlon1 & Hlon2).
  pose proof (lat_value_range lat Hlat1) as Ha.
  pose proof (lng_value_range lon Hlon1) as Hb.
  assert (0 <= lat_value lat / 3125 < 1440000) as Ha'
    by (Z.div_mod_to_equations; lia).
  assert (0 <= lng_value lon / 1024 < 2880000) as Hb'
    by (Z.div_mod_to_equations; lia).
  unfold ten_digits. rewrite decode_render_ten by assumption.
  eexists. split; [reflexivity|].
  rewrite area_of_ten by lia.
  unfold cell_contains, cell_area. simpl.
  destruct (lat_cell_contains lat Hlat1 Hlat2).
  destruct (lng_cell_contains lon Hlon1 Hlon2).
  tauto.
Qed.

(** ** The center of a decoded cell *)

Lemma degrees_le units v w offset :
  0 < units -> v <= w -> (degrees units v offset <= degrees units w offset)%Q.
Proof.
  intros Hu Hvw. unfold degrees.
  apply Qplus_le_l. apply Qmult_le_r.
  - apply Qinv_lt_0_compat. rewrite <- (Zlt_Qlt 0). exact Hu.
  - by rewrite <- Zle_Qle.
Qed.

Lemma cell_area_center lat height lng width n :
  0 <= height -> 0 <= width ->
  let area := cell_area lat height lng width n in
  cell_contains area (CodeArea.latitudeCenter area)
    (CodeArea.longitudeCenter area).
Proof.
  intros Hh Hw. unfold cell_contains, cell_area. simpl.
  assert (degrees lat_units lat 90 <= degrees lat_units (lat + height) 90)%Q
    by (apply degrees_le; [reflexivity|lia]).
  assert (degrees lng_units lng 180 <= degrees lng_units (lng + width) 180)%Q
    by (apply degrees_le; [reflexivity|lia]).
  unfold Qdiv. change (/ 2)%Q with (1 # 2)%Q. lra.
Qed.

Lemma pair_cell_pos n : 0 < pair_cell n.
Proof. do 5 (destruct n as [|n]; [reflexivity|]). reflexivity. Qed.

Lemma grid_cell_pos base n : 0 < base -> 0 < grid_cell base n.
Proof. intros Hb. unfold grid_cell. apply Z.pow_pos_nonneg; lia. Qed.

Lemma standard_center_inside : decode_center_inside.
Proof.
  intros code area. simpl. unfold decode.
  destruct (full_code_digits _) as [ds|]; [|discriminate].
  intros [= <-]. unfold area_of. apply cell_area_center.
  - pose proof (pair_cell_pos (Nat.div2 (length (firstn 10 ds)))).
    pose proof (grid_cell_pos 5 (length (skipn 10 ds))).
    destruct (length (skipn 10 ds)); lia.
  - pose proof (pair_cell_pos (Nat.div2 (length (firstn 10 ds)))).
    pose proof (grid_cell_pos 4 (length (skipn 10 ds))).
    destruct (length (skipn 10 ds)); lia.
Qed.

End StandardOlcFacts.

(** * Properties of the place search *)

Section PlacesFacts.
Import Places.

(** ** First-occurrence deduplication *)

Lemma keep_first_fresh seen cands r :
  r ∈ keep_first seen cands -> PlaceSearchResult.id r ∉ seen.
Proof.
  revert seen. induction cands as [|c cands IH]; intros seen; simpl.
  - intros H. inversion H.
  - case_bool_decide as Hc.
    + apply IH.
    + intros [->|Hin]%elem_of_cons; [exact Hc|].
      apply IH in Hin. set_solver.
Qed.

Lemma keep_first_NoDup seen cands : NoDup (ids (keep_first seen cands)).
Proof.
  revert seen. induction cands as [|c cands IH]; intros seen; simpl.
  - constructor.
  - case_bool_decide as Hc; [apply IH|].
    simpl. constructor; [|apply IH].
    intros (r & Hid & Hin)%list_elem_of_fmap.
    apply keep_first_fresh in Hin. set_solver.
Qed.

Lemma keep_first_origin seen cands r :
  r ∈ keep_first seen cands ->
  exists pre post,
    cands = pre ++ r :: post /\ PlaceSearchResult.id r ∉ ids pre.
Proof.
  revert seen. induction cands as [|c cands IH]; intros seen; simpl.
  - intros H. inversion H.
  - case_bool_decide as Hc.
    + intros Hin. pose proof (keep_first_fresh _ _ _ Hin) as Hfresh.
      destruct (IH _ Hin) as (pre & post & -> & Hpre).
      exists (c :: pre), post. split; [reflexivity|].
      simpl. intros [Heq|?]%elem_of_cons; [|tauto]. congruence.
    + intros [->|Hin]%elem_of_cons.
      * exists [], cands. split; [reflexivity|]. simpl. intros H; inversion H.
      * pose proof (keep_first_fresh _ _ _ Hin) as Hfresh.
        destruct (IH _ Hin) as (pre & post & -> & Hpre).
        exists (c :: pre), post. split; [reflexivity|].
        simpl. intros [Heq|?]%elem_of_cons; [|tauto]. set_solver.
Qed.

Lemma keep_first_cover seen cands c :
  c ∈ cands ->
  PlaceSearchResult.id c ∈ seen
  \/ PlaceSearchResult.id c ∈ ids (keep_first seen cands).
Proof.
  revert seen. induction cands as [|d cands IH]; intros seen; simpl.
  - intros H. inversion H.
  - intros [->|Hin]%elem_of_cons.
    + case_bool_decide as Hd; [left; exact Hd|].
      right. simpl. left.
    + case_bool_decide as Hd; [apply IH, Hin|].
      destruct (IH (seen ∪ {[PlaceSearchResult.id d]}) Hin) as [H|H].
      * apply elem_of_union in H as [H|H]; [left; exact H|].
        right. simpl. apply elem_of_singleton in H. rewrite H. left.
      * right. simpl. right. exact H.
Qed.

Lemma keep_first_sublist seen cands : keep_first seen cands `sublist_of` cands.
Proof.
  revert seen. induction cands as [|c cands IH]; intros seen; simpl.
  - constructor.
  - case_bool_decide; [apply sublist_cons, IH | apply sublist_skip, IH].
Qed.

(** ** The two loops *)

Lemma len_record r st : len (record r st) = len st + 1.
Proof. unfold len, record. simpl. rewrite length_app. simpl. lia. Qed.

Lemma seen_ok_initial : seen_ok initial.
Proof. unfold seen_ok, initial, ids. simpl. set_solver. Qed.

Lemma seen_ok_record r st : seen_ok st -> seen_ok (record r st).
Proof.
  unfold seen_ok, record, ids. simpl. intros ->.
  rewrite fmap_app, list_to_set_app_L. simpl. by rewrite union_empty_r_L.
Qed.

Lemma scan_regions_results rs st :
  results (scan_regions rs st)
  = results st ++ keep_first (seen_ids st) (region_result <$> rs).
Proof.
  revert st. induction rs as [|g rs IH]; intros st; simpl.
  - by rewrite app_nil_r.
  - change (PlaceSearchResult.id (region_result g)) with (Region.code g).
    case_bool_decide; [apply IH|].
    rewrite IH. simpl. by rewrite <- app_assoc.
Qed.

Lemma scan_regions_seen rs st : seen_ok st -> seen_ok (scan_regions rs st).
Proof.
  revert st. induction rs as [|g rs IH]; intros st Hst; simpl; [done|].
  case_bool_decide; [by apply IH|]. by apply IH, seen_ok_record.
Qed.

(** The district loop appends the first-occurrence candidates and leaves
    as soon as [len(results) >= limit] holds after an append.  (The test
    sits behind the append, so one result is appended even when the limit
    was already met on entry.) *)
Lemma scan_districts_results q limit ds st :
  results (scan_districts q limit ds st)
  = results st
    ++ take (Z.to_nat (Z.max 1 (limit - len st)))
            (keep_first (seen_ids st)
               (district_result <$> List.filter (district_matches q) ds)).
Proof.
  revert st. induction ds as [|d ds IH]; intros st; simpl.
  - by rewrite take_nil, app_nil_r.
  - destruct (district_matches q d) eqn:Hm; [|apply IH].
    simpl. change (PlaceSearchResult.id (district_result d)) with (district_id d).
    case_bool_decide as Hseen; [apply IH|].
    pose proof (len_record (district_result d) st) as Hlen.
    destruct (Z.geb_spec (len (record (district_result d) st)) limit) as [Hge|Hlt].
    + replace (Z.to_nat (Z.max 1 (limit - len st))) with 1%nat by lia.
      simpl. by rewrite take_0.
    + rewrite IH, Hlen. simpl. rewrite <- app_assoc. simpl.
      replace (Z.to_nat (Z.max 1 (limit - len st)))
        with (S (Z.to_nat (Z.max 1 (limit - (len st + 1))))) by lia.
      reflexivity.
Qed.

Lemma scan_districts_seen q limit ds st :
  seen_ok st -> seen_ok (scan_districts q limit ds st).
Proof.
  revert st. induction ds as [|d ds IH]; intros st Hst; simpl; [done|].
  destruct (district_matches q d); [|by apply IH].
  case_bool_decide; [by apply IH|].
  destruct (_ >=? _); [by apply seen_ok_record|].
  by apply IH, seen_ok_record.
Qed.

(** ** The whole search as a function of its candidates *)

Lemma after_districts_results db name limit :
  results (after_districts db name limit)
  = take (Z.to_nat (Z.max 1 limit))
         (keep_first ∅ (district_candidates db name limit)).
Proof.
  unfold after_districts, district_candidates.
  rewrite scan_districts_results. simpl.
  unfold len, initial. simpl. by rewrite Z.sub_0_r.
Qed.

Lemma after_districts_seen db name limit :
  seen_ok (after_districts db name limit).
Proof. apply scan_districts_seen, seen_ok_initial. Qed.

Lemma search_places_data db name limit :
  PlacesSearchResponse.data (search_places db name limit)
  = results (after_districts db name limit)
    ++ keep_first (seen_ids (after_districts db name limit))
         (region_result <$> regions_fetched db name limit).
Proof.
  unfold search_places, regions_fetched.
  fold (after_districts db name limit).
  destruct (len (after_districts db name limit) <? limit); simpl.
  - apply scan_regions_results.
  - by rewrite app_nil_r.
Qed.

Lemma search_places_count db name limit :
  PlacesSearchResponse.count (search_places db name limit)
  = Z.of_nat (length (PlacesSearchResponse.data (search_places db name limit))).
Proof. reflexivity. Qed.

(** When the region query runs, the district loop was not cut short:
    every district candidate's id has been seen. *)
Lemma district_ids_seen db name limit c :
  len (after_districts db name limit) < limit ->
  c ∈ district_candidates db name limit ->
  PlaceSearchResult.id c ∈ seen_ids (after_districts db name limit).
Proof.
  intros Hlt Hc.
  rewrite (after_districts_seen db name limit).
  pose proof (after_districts_results db name limit) as HD.
  assert (results (after_districts db name limit)
          = keep_first ∅ (district_candidates db name limit)) as ->.
  { rewrite HD. apply take_ge.
    unfold len in Hlt. rewrite HD, length_take in Hlt. lia. }
  apply elem_of_list_to_set.
  destruct (keep_first_cover ∅ _ _ Hc) as [H|H]; [set_solver|exact H].
Qed.

End PlacesFacts.

(** ** Result cap *)

(** C4: for every query and every limit of at least one, at most [limit]
    results are returned (and [count] is their number); the district loop
    keeps exactly the first [limit] first-occurrence candidates, so it ends
    once [limit] results are assembled; the region query asks for at most
    [limit - len(results)] rows. *)
Theorem search_limit db name limit :
  1 <= limit ->
  Z.of_nat (length (PlacesSearchResponse.data (Places.search_places db name limit)))
    <= limit
  /\ PlacesSearchResponse.count (Places.search_places db name limit) <= limit
  /\ Places.results (Places.after_districts db name limit)
     = take (Z.to_nat limit)
         (Places.keep_first ∅ (Places.district_candidates db name limit))
  /\ Z.of_nat (length (Places.regions_fetched db name limit))
     <= limit - Places.len (Places.after_districts db name limit).
Proof.
  intros Hlimit.
  pose proof (after_districts_results db name limit) as HD.
  replace (Z.max 1 limit) with limit in HD by lia.
  assert (Places.len (Places.after_districts db name limit) <= limit) as HlenD.
  { unfold Places.len. rewrite HD, length_take. lia. }
  assert (Z.of_nat (length (Places.regions_fetched db name limit))
          <= limit - Places.len (Places.after_districts db name limit)) as HR.
  { unfold Places.regions_fetched.
    destruct (Z.ltb_spec (Places.len (Places.after_districts db name limit)) limit).
    - unfold Places.select_regions, Sql.limit. rewrite length_take. lia.
    - simpl. lia. }
  assert (Z.of_nat (length (PlacesSearchResponse.data
                              (Places.search_places db name limit))) <= limit).
  { rewrite search_places_data, length_app.
    pose proof (sublist_length _ _
      (keep_first_sublist
         (Places.seen_ids (Places.after_districts db name limit))
         (Places.region_result <$> Places.regions_fetched db name limit))) as Hsub.
    rewrite length_fmap in Hsub. unfold Places.len in *. lia. }
  split; [assumption|].
  split; [rewrite search_places_count; assumption|].
  split; assumption.
Qed.

Lemma search_limit_witness :
  let db := {| district_table :=
                 [District.mk 1 "Afgooye" "SOM-SHB-AFG" "Lower Shabelle" None None None 1;
                  District.mk 2 "Marka" "SOM-SHB-MRK" "Lower Shabelle" None None None 1];
               region_table := [Region.mk 1 "Lower Shabelle" "SOM-SHB" None None] |} in
  Z.of_nat (length (PlacesSearchResponse.data (Places.search_places db "shabelle" 2)))
    <= 2.
Proof. intros db. apply (search_limit db "shabelle" 2). lia. Defined.

(** From membership in a prefix, or in the deduplicated list, to membership
    in the list itself. *)
Ltac from_take H := eapply elem_of_sublist in H; [|apply sublist_take].
Ltac from_keep_first H := eapply elem_of_sublist in H; [|apply keep_first_sublist].

(** ** Deduplication *)

Lemma at_most_one_per_id (x : string) (rs : list PlaceSearchResult.t) :
  NoDup (Places.ids rs) ->
  (length (filter (fun r => PlaceSearchResult.id r = x) rs) <= 1)%nat.
Proof.
  unfold Places.ids. induction rs as [|r rs IH]; simpl; intros Hnd; [lia|].
  apply NoDup_cons in Hnd as [Hr Hnd]. rewrite filter_cons.
  case_decide as Hx; [|by apply IH].
  destruct (filter (fun r => PlaceSearchResult.id r = x) rs) as [|r' l] eqn:E;
    [simpl; lia|].
  assert (r' ∈ filter (fun r => PlaceSearchResult.id r = x) rs) as Hin
    by (rewrite E; left).
  apply list_elem_of_filter in Hin as [Hid Hin]. exfalso. apply Hr.
  rewrite Hx, <- Hid. by apply list_elem_of_fmap_2.
Qed.

(** Whatever rows the two queries hand over, the loops never record an id
    twice. *)
Lemma loops_NoDup q limit ds rs :
  NoDup (Places.ids (Places.results
           (Places.scan_regions rs (Places.scan_districts q limit ds Places.initial)))).
Proof.
  rewrite scan_regions_results. unfold Places.ids. rewrite fmap_app.
  apply NoDup_app. split; [|split].
  - rewrite scan_districts_results.
    change (Places.results Places.initial) with (@nil PlaceSearchResult.t).
    rewrite app_nil_l, fmap_take.
    eapply sublist_NoDup; [apply keep_first_NoDup|apply sublist_take].
  - intros x Hx (r & -> & Hr)%list_elem_of_fmap.
    apply keep_first_fresh in Hr. apply Hr.
    rewrite (scan_districts_seen q limit ds _ seen_ok_initial).
    by apply elem_of_list_to_set.
  - apply keep_first_NoDup.
Qed.

(** C5: no two results of a search carry the same computed id; every result
    is the first candidate with its id in scan order (fetched districts
    that match, then fetched regions); hence, whatever the dataset, at most
    one result carries any given id. *)
Theorem search_dedup db name limit :
  NoDup (Places.ids (PlacesSearchResponse.data (Places.search_places db name limit)))
  /\ (forall r,
        r ∈ PlacesSearchResponse.data (Places.search_places db name limit) ->
        exists pre post,
          Places.candidates db name limit = pre ++ r :: post
          /\ PlaceSearchResult.id r ∉ Places.ids pre)
  /\ (forall x,
        length (filter (fun r => PlaceSearchResult.id r = x)
                  (PlacesSearchResponse.data (Places.search_places db name limit)))
        <= 1)%nat.
Proof.
  assert (NoDup (Places.ids (PlacesSearchResponse.data
                               (Places.search_places db name limit)))) as Hnd.
  { rewrite search_places_data. unfold Places.ids. rewrite fmap_app.
    apply NoDup_app. split; [|split].
    - rewrite after_districts_results, fmap_take.
      eapply sublist_NoDup; [apply keep_first_NoDup|apply sublist_take].
    - intros x Hx (r & -> & Hr)%list_elem_of_fmap.
      apply keep_first_fresh in Hr. apply Hr.
      rewrite (after_districts_seen db name limit).
      by apply elem_of_list_to_set.
    - apply keep_first_NoDup. }
  split; [exact Hnd|]. split; [|intros x; by apply at_most_one_per_id].
  intros r. rewrite search_places_data. intros [Hr|Hr]%elem_of_app.
  - rewrite after_districts_results in Hr.
    from_take Hr.
    destruct (keep_first_origin _ _ _ Hr) as (pre & post & Hc & Hpre).
    exists pre, (post ++ (Places.region_result <$> Places.regions_fetched db name limit)).
    split; [|exact Hpre].
    unfold Places.candidates. rewrite Hc, <- app_assoc. reflexivity.
  - pose proof (keep_first_fresh _ _ _ Hr) as Hfresh.
    destruct (keep_first_origin _ _ _ Hr) as (pre & post & Hc & Hpre).
    exists (Places.district_candidates db name limit ++ pre), post.
    split.
    + unfold Places.candidates. rewrite Hc, <- app_assoc. reflexivity.
    + unfold Places.ids. rewrite fmap_app.
      intros [(c & Hid & Hin)%list_elem_of_fmap|Hin]%elem_of_app; [|by apply Hpre].
      apply Hfresh. rewrite Hid. apply district_ids_seen; [|exact Hin].
      unfold Places.regions_fetched in Hc.
      destruct (Z.ltb_spec (Places.len (Places.after_districts db name limit)) limit);
        [assumption|].
      simpl in Hc. by destruct pre.
Qed.

(** Two districts that share a code: only the first one is reported. *)
Example same_code_reported_once :
  let db := {| district_table :=
                 [District.mk 1 "Jowhar" "SOM-SHD-JOW" "Middle Shabelle" None None None 1;
                  District.mk 2 "Jowhar Town" "SOM-SHD-JOW" "Middle Shabelle" None None None 1];
               region_table := [] |} in
  PlaceSearchResult.name <$> PlacesSearchResponse.data (Places.search_places db "jowhar" 10)
  = ["Jowhar"].
Proof. vm_compute. reflexivity. Qed.

(** ** Result identity *)

Lemma select_districts_In db q limit d :
  d ∈ Places.select_districts db q limit -> d ∈ district_table db.
Proof.
  unfold Places.select_districts, Sql.limit. intros Hd.
  from_take Hd.
  apply list_elem_of_In, filter_In in Hd as [Hd _]. by apply list_elem_of_In.
Qed.

Lemma regions_fetched_In db name limit g :
  g ∈ Places.regions_fetched db name limit -> g ∈ region_table db.
Proof.
  unfold Places.regions_fetched, Places.select_regions, Sql.limit.
  destruct (_ <? _); [|intros H; inversion H]. intros Hg.
  from_take Hg.
  apply list_elem_of_In, filter_In in Hg as [Hg _]. by apply list_elem_of_In.
Qed.

(** Every result is built from a fetched district that passes the match
    test, or from a fetched region. *)
Lemma search_result_origin db name limit r :
  r ∈ PlacesSearchResponse.data (Places.search_places db name limit) ->
  (exists d, d ∈ Places.select_districts db (Py.lower name) limit
             /\ Places.district_matches (Py.lower name) d = true
             /\ r = Places.district_result d)
  \/ (exists g, g ∈ Places.regions_fetched db name limit
                /\ r = Places.region_result g).
Proof.
  rewrite search_places_data. intros [Hr|Hr]%elem_of_app.
  - left. rewrite after_districts_results in Hr.
    from_take Hr.
    from_keep_first Hr.
    unfold Places.district_candidates in Hr.
    apply list_elem_of_fmap in Hr as (d & -> & Hd).
    apply list_elem_of_In, filter_In in Hd as [Hd Hm].
    exists d. by rewrite list_elem_of_In.
  - right. from_keep_first Hr.
    apply list_elem_of_fmap in Hr as (g & -> & Hg). by exists g.
Qed.

(** C9: a district result carries the district's code when that code is
    non-empty, and otherwise "SOM-", the first three characters of the
    region name in upper case, "-", and the first three characters of the
    district name in upper case; a region result carries the region's code. *)
Theorem search_result_id db name limit r :
  r ∈ PlacesSearchResponse.data (Places.search_places db name limit) ->
  (exists d, d ∈ district_table db
     /\ r = Places.district_result d
     /\ PlaceSearchResult.type r = "district"
     /\ (District.code d <> "" -> PlaceSearchResult.id r = District.code d)
     /\ (District.code d = "" ->
         PlaceSearchResult.id r
         = "SOM-" +:+ Py.upper (Py.slice_to 3 (District.region_name d))
           +:+ "-" +:+ Py.upper (Py.slice_to 3 (District.name d))))
  \/ (exists g, g ∈ region_table db
        /\ r = Places.region_result g
        /\ PlaceSearchResult.type r = "region"
        /\ PlaceSearchResult.id r = Region.code g).
Proof.
  intros [(d & Hd & _ & ->)|(g & Hg & ->)]%search_result_origin.
  - left. exists d. split; [by eapply select_districts_In|].
    split; [reflexivity|]. split; [reflexivity|].
    simpl. unfold Places.district_id.
    destruct (District.code d) eqn:Hc; simpl; split; congruence.
  - right. exists g. split; [by eapply regions_fetched_In|]. done.
Qed.

Lemma search_result_id_witness :
  let d := District.mk 7 "Baidoa" "" "Bay" None None None 3 in
  let db := {| district_table := [d];
               region_table := [Region.mk 3 "Bay" "SOM-BAY" None None] |} in
  let r := Places.district_result d in
  (exists d, d ∈ district_table db
     /\ r = Places.district_result d
     /\ PlaceSearchResult.type r = "district"
     /\ (District.code d <> "" -> PlaceSearchResult.id r = District.code d)
     /\ (District.code d = "" ->
         PlaceSearchResult.id r
         = "SOM-" +:+ Py.upper (Py.slice_to 3 (District.region_name d))
           +:+ "-" +:+ Py.upper (Py.slice_to 3 (District.name d))))
  \/ (exists g, g ∈ region_table db
        /\ r = Places.region_result g
        /\ PlaceSearchResult.type r = "region"
        /\ PlaceSearchResult.id r = Region.code g).
Proof.
  intros d db r. apply (search_result_id db "bai" 10 r).
  vm_compute. left.
Defined.

Example fallback_id_example :
  Places.ids (PlacesSearchResponse.data
    (Places.search_places
       {| district_table := [District.mk 7 "Baidoa" "" "Bay" None None None 3];
          region_table := [Region.mk 3 "Bay" "SOM-BAY" None None] |} "ba" 10))
  = ["SOM-BAY-BAI"; "SOM-BAY"].
Proof. vm_compute. reflexivity. Qed.

(** ** Alias matching *)

(** For a query without LIKE wildcards, the district query hands over only
    rows whose name or region name contains the query, so the alias test of
    the loop is never the deciding one: every district result has the query
    in its name or in its region name. *)
Lemma district_results_match_by_name db name limit r :
  Sql.plain (Py.lower name) = true ->
  r ∈ PlacesSearchResponse.data (Places.search_places db name limit) ->
  PlaceSearchResult.type r = "district" ->
  Py.contains (Py.lower name) (Py.lower (PlaceSearchResult.name r))
  || Py.contains (Py.lower name) (Py.lower (PlaceSearchResult.region r)) = true.
Proof.
  intros Hq [(d & Hd & _ & ->)|(g & _ & ->)]%search_result_origin Hty;
    [|discriminate Hty].
  unfold Places.select_districts, Sql.limit in Hd. from_take Hd.
  apply list_elem_of_In, filter_In in Hd as [_ Hd].
  unfold Sql.lower in Hd. rewrite !sql_contains_plain in Hd by assumption.
  exact Hd.
Qed.

(** C1, at the input of the claim: the district "Beledweyne" with alias
    "Beletweyne" passes the match test of the loop for the query
    "beletweyne", but the district query filters on name and region name
    only, never hands the row to the loop, and the search returns nothing. *)
Theorem alias_only_match_not_returned :
  Places.district_matches (Py.lower "beletweyne") beledweyne = true
  /\ Places.select_districts hiiraan_db (Py.lower "beletweyne") 10 = []
  /\ PlacesSearchResponse.data (Places.search_places hiiraan_db "beletweyne" 10) = [].
Proof. vm_compute. repeat split. Qed.

(** Likewise "Mogadishu" with alias "Xamar" is not found by the query
    "xamar". *)
Example alias_xamar_not_returned :
  PlacesSearchResponse.data
    (Places.search_places
       {| district_table :=
            [District.mk 1 "Mogadishu" "SOM-BNR-MOG" "Banadir" None
               (Some ["Xamar"]) None 1];
          region_table := [Region.mk 1 "Banadir" "SOM-BNR" None None] |}
       "xamar" 5) = [].
Proof. vm_compute. reflexivity. Qed.

(** * Properties of the Somalia location codes *)

Section RegionLocatorFacts.

Lemma holds_spec b lat lon : Bounds.holds b lat lon = true <-> Bounds.Holds b lat lon.
Proof.
  unfold Bounds.holds, Bounds.Holds.
  rewrite !andb_true_iff, !Qle_bool_iff. tauto.
Qed.

Lemma first_region_Some table lat lon code :
  first_region table lat lon = Some code <->
  exists pre bounds post,
    table = pre ++ (code, bounds) :: post
    /\ Bounds.Holds bounds lat lon
    /\ Forall (misses lat lon) pre.
Proof.
  induction table as [|[c b] table IH]; simpl.
  - split; [discriminate|]. intros (pre & bounds & post & Heq & _).
    by destruct pre.
  - destruct (Bounds.holds b lat lon) eqn:Hb.
    + apply holds_spec in Hb. split.
      * intros [= <-]. exists [], b, table.
        split; [reflexivity|]. split; [assumption|constructor].
      * intros ([|[c' b'] pre] & bounds & post & Heq & Hin & Hpre).
        -- by injection Heq as -> _ _.
        -- injection Heq as -> -> _. apply Forall_cons in Hpre as [Hmiss _].
           contradiction.
    + assert (~ Bounds.Holds b lat lon) as Hmiss
        by (rewrite <- holds_spec, Hb; discriminate).
      rewrite IH. split.
      * intros (pre & bounds & post & -> & Hin & Hpre).
        exists ((c, b) :: pre), bounds, post.
        split; [reflexivity|]. split; [assumption|]. by constructor.
      * intros ([|[c' b'] pre] & bounds & post & Heq & Hin & Hpre).
        -- injection Heq as _ -> _. contradiction.
        -- injection Heq as _ _ ->. apply Forall_cons in Hpre as [_ Hpre].
           by exists pre, bounds, post.
Qed.

Lemma first_region_None table lat lon :
  first_region table lat lon = None <-> Forall (misses lat lon) table.
Proof.
  induction table as [|[c b] table IH]; simpl.
  - split; [constructor|reflexivity].
  - destruct (Bounds.holds b lat lon) eqn:Hb.
    + apply holds_spec in Hb. split; [discriminate|].
      intros [Hmiss _]%Forall_cons. contradiction.
    + rewrite IH. split.
      * intros Hrest. constructor; [|assumption].
        unfold misses. simpl. rewrite <- holds_spec, Hb. discriminate.
      * by intros [_ Hrest]%Forall_cons.
Qed.

(** Every code of the table is a non-empty string. *)
Lemma region_code_truthy lat lon region :
  _get_region_from_coords lat lon = Some region ->
  Py.when_truthy (Some region) = Some region.
Proof.
  unfold _get_region_from_coords, regions. simpl.
  repeat (destruct (Bounds.holds _ lat lon); [by intros [= <-]|]).
  discriminate.
Qed.

End RegionLocatorFacts.

Section ComposerFacts.
Context `{OpenLocationCode}.

Lemma count_colon_prefixed pre rest :
  Py.count ":" (pre +:+ ":" +:+ rest) = (Py.count ":" pre + S (Py.count ":" rest))%nat.
Proof. by rewrite count_app. Qed.

(** A code with a ":" is split at the first one, and the text after it
    goes to the codec. *)
Lemma decode_somalia_olc_prefixed pre rest :
  Py.count ":" pre = O ->
  decode_somalia_olc (pre +:+ ":" +:+ rest)
  = match decode_olc rest with
    | Raise e => Raise e
    | Ok result => Ok (Decoded.set_region_code pre result)
    end.
Proof.
  intros Hpre. unfold decode_somalia_olc.
  rewrite contains_char_count, count_colon_prefixed, Hpre.
  change (":" +:+ rest) with (String ":" rest).
  by rewrite (split1_found ":" pre rest Hpre).
Qed.

Lemma decode_somalia_olc_plain code :
  Py.count ":" code = O -> decode_somalia_olc code = decode_olc code.
Proof.
  intros Hc. unfold decode_somalia_olc.
  by rewrite contains_char_count, Hc.
Qed.

Lemma olc_portion_prefixed pre rest :
  Py.count ":" pre = O -> olc_portion (pre +:+ ":" +:+ rest) = rest.
Proof.
  intros Hpre. unfold olc_portion.
  change (":" +:+ rest) with (String ":" rest).
  by rewrite (split1_found ":" pre rest Hpre).
Qed.

Lemma olc_portion_plain code : Py.count ":" code = O -> olc_portion code = code.
Proof. intros Hc. unfold olc_portion. by rewrite split1_absent. Qed.

Lemma decode_olc_fails code : fails (decode_olc code) <-> fails (olc_decode code).
Proof.
  unfold decode_olc, fails. destruct (olc_decode code) as [area|e].
  - split; intros [e' He]; discriminate.
  - split; intros _; by exists e.
Qed.

Lemma decode_somalia_olc_fails code :
  fails (decode_somalia_olc code) <-> fails (olc_decode (olc_portion code)).
Proof.
  destruct (Nat.eq_dec (Py.count ":" code) O) as [Hc|Hc].
  - rewrite decode_somalia_olc_plain, olc_portion_plain by assumption.
    apply decode_olc_fails.
  - destruct (first_occurrence _ _ Hc) as (pre & rest & -> & Hpre).
    change (pre +:+ String ":" rest) with (pre +:+ ":" +:+ rest).
    rewrite decode_somalia_olc_prefixed, olc_portion_prefixed by assumption.
    rewrite <- decode_olc_fails. unfold fails.
    destruct (decode_olc rest) as [d|e].
    + split; intros [e' He]; discriminate.
    + split; intros _; by exists e.
Qed.

End ComposerFacts.

(** ** Coordinates out of range *)

Section OutOfRange.
Context `{OpenLocationCode}.

(** The helper adds no check of its own: it fails exactly when the codec
    call does. *)
Lemma generate_somalia_olc_fails lat lon region_code :
  fails (generate_somalia_olc lat lon region_code)
  <-> fails (olc_encode lat lon None).
Proof.
  unfold generate_somalia_olc, generate_olc, fails.
  destruct (olc_encode lat lon None) as [base|e].
  - split; intros [e' He]; [|discriminate].
    destruct (Py.when_truthy region_code);
      [|destruct (Py.when_truthy (_get_region_from_coords lat lon))];
      discriminate.
  - split; intros _; by exists e.
Qed.


End OutOfRange.

(** ** Composing and parsing *)

Section ComposeParse.
Context `{OpenLocationCode}.

Lemma when_truthy_nonempty region_code :
  region_code <> "" -> Py.when_truthy (Some region_code) = Some region_code.
Proof. by destruct region_code. Qed.

Lemma generate_somalia_olc_supplied lat lon region_code base :
  region_code <> "" ->
  olc_encode lat lon None = Ok base ->
  generate_somalia_olc lat lon (Some region_code)
  = Ok (region_code +:+ ":" +:+ base).
Proof.
  intros Hne Henc. unfold generate_somalia_olc, generate_olc.
  by rewrite Henc, when_truthy_nonempty.
Qed.

Lemma generate_somalia_olc_inferred lat lon region_code base :
  region_code = None \/ region_code = Some "" ->
  olc_encode lat lon None = Ok base ->
  generate_somalia_olc lat lon region_code
  = match _get_region_from_coords lat lon with
    | Some region => Ok ("SOM-" +:+ region +:+ ":" +:+ base)
    | None => Ok base
    end.
Proof.
  intros Hrc Henc. unfold generate_somalia_olc, generate_olc. rewrite Henc.
  assert (Py.when_truthy region_code = None) as -> by (by destruct Hrc as [->| ->]).
  destruct (_get_region_from_coords lat lon) as [region|] eqn:Hr; [|reflexivity].
  by rewrite (region_code_truthy _ _ _ Hr).
Qed.

End ComposeParse.

(** C3: for coordinates in range and a non-empty region code without ":",
    parsing the composed code succeeds, hands back the region code, and
    reports the center of the cell that the encoding of the point denotes,
    a cell which holds both the point and that center. *)
Theorem compose_parse_roundtrip `{OpenLocationCode} :
  encode_accepts_range -> decode_encode_contains -> decode_center_inside ->
  forall lat lon region_code,
    valid_coords lat lon ->
    region_code <> "" ->
    Py.count ":" region_code = O ->
    exists base area decoded,
      olc_encode lat lon None = Ok base
      /\ olc_decode base = Ok area
      /\ cell_contains area lat lon
      /\ parse_composed lat lon (Some region_code) = Ok decoded
      /\ Decoded.region_code decoded = Some region_code
      /\ Decoded.latitude_center decoded = CodeArea.latitudeCenter area
      /\ Decoded.longitude_center decoded = CodeArea.longitudeCenter area
      /\ cell_contains area (Decoded.latitude_center decoded)
           (Decoded.longitude_center decoded).
Proof.
  intros Hacc Hround Hcenter lat lon region_code Hv Hne Hcolon.
  destruct (Hacc lat lon Hv) as [base Henc].
  destruct (Hround lat lon base Hv Henc) as (area & Hdec & Hin).
  exists base, area. eexists.
  split; [exact Henc|]. split; [exact Hdec|]. split; [exact Hin|].
  unfold parse_composed.
  rewrite (generate_somalia_olc_supplied _ _ _ _ Hne Henc). simpl.
  rewrite decode_somalia_olc_prefixed by assumption.
  unfold decode_olc. rewrite Hdec.
  split; [reflexivity|]. simpl.
  split; [reflexivity|]. split; [reflexivity|]. split; [reflexivity|].
  by apply (Hcenter base).
Qed.

(** C6, amended: with [base] the code the codec returns for the point, a
    non-empty region code gives "{region_code}:{base}" whatever the locator
    says; without a region code, or with the empty one, the result is
    "SOM-{R}:{base}" when the locator finds [R], and [base] when it finds
    nothing. *)
Theorem compose_cases `{OpenLocationCode} lat lon base :
  olc_encode lat lon None = Ok base ->
  (forall region_code,
     region_code <> "" ->
     generate_somalia_olc lat lon (Some region_code)
     = Ok (region_code +:+ ":" +:+ base))
  /\ (forall region_code region,
        region_code = None \/ region_code = Some "" ->
        _get_region_from_coords lat lon = Some region ->
        generate_somalia_olc lat lon region_code
        = Ok ("SOM-" +:+ region +:+ ":" +:+ base))
  /\ (forall region_code,
        region_code = None \/ region_code = Some "" ->
        _get_region_from_coords lat lon = None ->
        generate_somalia_olc lat lon region_code = Ok base).
Proof.
  intros Henc. split; [|split].
  - intros region_code Hne. by apply generate_somalia_olc_supplied.
  - intros region_code region Hrc Hr.
    by rewrite (generate_somalia_olc_inferred _ _ _ _ Hrc Henc), Hr.
  - intros region_code Hrc Hr.
    by rewrite (generate_somalia_olc_inferred _ _ _ _ Hrc Henc), Hr.
Qed.


(** ** Parsing *)

Section ParseFacts.
Context `{OpenLocationCode}.

Lemma colon_free_when_decoded code area :
  decode_rejects_colon -> olc_decode code = Ok area -> Py.count ":" code = O.
Proof.
  intros Hcodec Hdec.
  destruct (Nat.eq_dec (Py.count ":" code) O) as [Hc|Hc]; [exact Hc|].
  rewrite Hcodec in Hdec; [discriminate|].
  rewrite contains_char_count. by destruct (Py.count ":" code).
Qed.

Lemma decode_olc_region_code code decoded :
  decode_olc code = Ok decoded -> Decoded.region_code decoded = None.
Proof.
  unfold decode_olc. destruct (olc_decode code); [|discriminate].
  by intros [= <-].
Qed.

End ParseFacts.

(** C7: with a codec that refuses any text with a ":", parsing fails exactly
    when the part handed to the codec fails to decode or the code has more
    than one ":"; with exactly one ":" and a part after it that decodes,
    parsing succeeds and the region code is the part before it; a code
    without ":" is decoded whole, and a code that the codec decodes is never
    refused. *)
Theorem parse_failure `{OpenLocationCode} :
  decode_rejects_colon ->
  forall code,
    (fails (decode_somalia_olc code)
     <-> fails (olc_decode (olc_portion code)) \/ (1 < Py.count ":" code)%nat)
    /\ (forall pre rest area,
          code = pre +:+ ":" +:+ rest ->
          Py.count ":" code = 1%nat ->
          olc_decode rest = Ok area ->
          exists result,
            decode_olc rest = Ok result
            /\ decode_somalia_olc code = Ok (Decoded.set_region_code pre result)
            /\ Decoded.region_code (Decoded.set_region_code pre result)
               = Some pre)
    /\ (Py.count ":" code = O -> decode_somalia_olc code = decode_olc code)
    /\ (forall area,
          olc_decode code = Ok area ->
          exists decoded,
            decode_somalia_olc code = Ok decoded
            /\ decode_olc code = Ok decoded
            /\ Decoded.region_code decoded = None).
Proof.
  intros Hcodec code. split; [|split; [|split]].
  - rewrite decode_somalia_olc_fails. split; [by left|].
    intros [Hfail|Hmany]; [exact Hfail|].
    assert (Py.count ":" code <> O) as Hc by lia.
    destruct (first_occurrence _ _ Hc) as (pre & rest & -> & Hpre).
    change (pre +:+ String ":" rest) with (pre +:+ ":" +:+ rest) in *.
    rewrite olc_portion_prefixed by assumption.
    rewrite count_colon_prefixed, Hpre in Hmany.
    exists ValueError. apply Hcodec.
    rewrite contains_char_count. destruct (Py.count ":" rest); [lia|reflexivity].
  - intros pre rest area -> Hone Hdec.
    rewrite count_colon_prefixed in Hone.
    assert (Py.count ":" pre = O) as Hpre by lia.
    rewrite decode_somalia_olc_prefixed by assumption.
    unfold decode_olc. rewrite Hdec. eexists. by repeat split.
  - apply decode_somalia_olc_plain.
  - intros area Hdec.
    rewrite decode_somalia_olc_plain
      by (by eapply colon_free_when_decoded).
    unfold decode_olc. rewrite Hdec. eexists. by repeat split.
Qed.

(** ** The region locator *)

(** C8: the locator returns the code of the first row of the table, in the
    order BNR, HRS, SHB, whose box holds the point, bounds included, and
    [None] when no box does; the point (2.0469, 45.3182) is located in BNR
    and, without a region code, composed into a code that starts with
    "SOM-BNR:". *)
Theorem locate_first_match `{OpenLocationCode} :
  encode_accepts_range ->
  map fst regions = ["BNR"; "HRS"; "SHB"]
  /\ (forall lat lon code,
        _get_region_from_coords lat lon = Some code <->
        exists pre bounds post,
          regions = pre ++ (code, bounds) :: post
          /\ Bounds.Holds bounds lat lon
          /\ Forall (misses lat lon) pre)
  /\ (forall lat lon,
        _get_region_from_coords lat lon = None <->
        Forall (misses lat lon) regions)
  /\ _get_region_from_coords 2.0469 45.3182 = Some "BNR"
  /\ exists base,
       olc_encode 2.0469 45.3182 None = Ok base
       /\ generate_somalia_olc 2.0469 45.3182 None = Ok ("SOM-BNR:" +:+ base).
Proof.
  intros Hacc. split; [reflexivity|].
  split; [intros lat lon code; apply first_region_Some|].
  split; [intros lat lon; apply first_region_None|].
  assert (_get_region_from_coords 2.0469 45.3182 = Some "BNR") as Hloc
    by (vm_compute; reflexivity).
  split; [exact Hloc|].
  destruct (Hacc 2.0469 45.3182)%Q as [base Henc].
  { unfold valid_coords, Qle. simpl. lia. }
  exists base. split; [exact Henc|].
  rewrite (generate_somalia_olc_inferred _ _ None base); [|by left|exact Henc].
  by rewrite Hloc.
Qed.

(** ** The region prefix is not validated *)

(** C10: when the text after the first ":" decodes, the region code of the
    result is the text before that ":", whatever it is; in particular an
    empty prefix gives the region code "" and not [None]. *)
Theorem parse_prefix_verbatim `{OpenLocationCode} code area :
  Py.count ":" code <> O ->
  olc_decode (olc_portion code) = Ok area ->
  exists pre result,
    code = pre +:+ ":" +:+ olc_portion code
    /\ Py.count ":" pre = O
    /\ decode_olc (olc_portion code) = Ok result
    /\ decode_somalia_olc code = Ok (Decoded.set_region_code pre result)
    /\ Decoded.region_code (Decoded.set_region_code pre result) = Some pre
    /\ (pre = "" ->
        Decoded.region_code (Decoded.set_region_code pre result) = Some ""
        /\ Decoded.region_code (Decoded.set_region_code pre result) <> None).
Proof.
  intros Hc Hdec.
  destruct (first_occurrence _ _ Hc) as (pre & rest & -> & Hpre).
  change (pre +:+ String ":" rest) with (pre +:+ ":" +:+ rest) in *.
  rewrite olc_portion_prefixed in * by assumption.
  exists pre. eexists.
  split; [reflexivity|]. split; [exact Hpre|].
  rewrite decode_somalia_olc_prefixed by assumption.
  unfold decode_olc. rewrite Hdec.
  split; [reflexivity|]. split; [reflexivity|]. split; [reflexivity|].
  intros ->. by split.
Qed.

(** * The statements on the reference codec *)

Section OnReferenceCodec.
Local Existing Instance StandardOlc.codec.

Lemma compose_parse_roundtrip_witness :
  exists base area decoded,
    olc_encode 2.0469 45.3182 None = Ok base
    /\ olc_decode base = Ok area
    /\ cell_contains area 2.0469 45.3182
    /\ parse_composed 2.0469 45.3182 (Some "SOM-BNR") = Ok decoded
    /\ Decoded.region_code decoded = Some "SOM-BNR"
    /\ Decoded.latitude_center decoded = CodeArea.latitudeCenter area
    /\ Decoded.longitude_center decoded = CodeArea.longitudeCenter area
    /\ cell_contains area (Decoded.latitude_center decoded)
         (Decoded.longitude_center decoded).
Proof.
  apply (compose_parse_roundtrip
           standard_accepts_range standard_decode_encode standard_center_inside).
  - unfold valid_coords, Qle. simpl. lia.
  - discriminate.
  - reflexivity.
Defined.

(** The composed code of the witness, and the region code read back. *)
Example composed_code_example :
  generate_somalia_olc 2.0469 45.3182 (Some "SOM-BNR")
  = Ok "SOM-BNR:6HJ728W9+Q7"
  /\ match decode_somalia_olc "SOM-BNR:6HJ728W9+Q7" with
     | Ok decoded => Decoded.region_code decoded
     | Raise _ => None
     end = Some "SOM-BNR".
Proof. split; vm_compute; reflexivity. Qed.

(** C6, as stated, fails for the empty region code: it is supplied, but the
    locator is consulted and its prefix is the one in the code. *)
Lemma compose_empty_region_code_counterexample :
  olc_encode 2.0469 45.3182 None = Ok "6HJ728W9+Q7"
  /\ generate_somalia_olc 2.0469 45.3182 (Some "")
     = Ok "SOM-BNR:6HJ728W9+Q7"
  /\ generate_somalia_olc 2.0469 45.3182 (Some "")
     <> Ok ("" +:+ ":" +:+ "6HJ728W9+Q7").
Proof.
  split; [vm_compute; reflexivity|]. split; [vm_compute; reflexivity|].
  vm_compute. discriminate.
Qed.

Lemma compose_cases_witness :
  generate_somalia_olc 2.0469 45.3182 (Some "SOM-XYZ")
  = Ok ("SOM-XYZ" +:+ ":" +:+ "6HJ728W9+Q7")
  /\ generate_somalia_olc 2.0469 45.3182 None
     = Ok ("SOM-" +:+ "BNR" +:+ ":" +:+ "6HJ728W9+Q7").
Proof.
  assert (olc_encode 2.0469 45.3182 None = Ok "6HJ728W9+Q7") as Henc
    by (vm_compute; reflexivity).
  destruct (compose_cases _ _ _ Henc) as (Hs & Hi & _).
  split.
  - apply Hs. discriminate.
  - apply Hi; [by left|vm_compute; reflexivity].
Defined.

Lemma parse_failure_witness :
  fails (decode_somalia_olc "SOM:BNR:6HJ728W9+Q7")
  <-> fails (olc_decode (olc_portion "SOM:BNR:6HJ728W9+Q7"))
      \/ (1 < Py.count ":" "SOM:BNR:6HJ728W9+Q7")%nat.
Proof.
  apply (parse_failure standard_rejects_colon "SOM:BNR:6HJ728W9+Q7").
Defined.

(** Two separators: the text after the first one is refused by the codec. *)
Example parse_two_separators :
  decode_somalia_olc "SOM:BNR:6HJ728W9+Q7" = Raise ValueError.
Proof. vm_compute. reflexivity. Qed.

Lemma locate_first_match_witness :
  _get_region_from_coords 2.0469 45.3182 = Some "BNR"
  /\ exists base,
       olc_encode 2.0469 45.3182 None = Ok base
       /\ generate_somalia_olc 2.0469 45.3182 None = Ok ("SOM-BNR:" +:+ base).
Proof.
  apply (locate_first_match standard_accepts_range).
Defined.

(** The bounds of a box belong to it, and the corner shared by no box is
    located nowhere. *)
Example locate_boundaries :
  _get_region_from_coords 1.8 45.0 = Some "BNR"
  /\ _get_region_from_coords 2.2 45.6 = Some "BNR"
  /\ _get_region_from_coords 10.0 45.0 = Some "HRS"
  /\ _get_region_from_coords 2.0 43.0 = Some "SHB"
  /\ _get_region_from_coords 2.2 45.7 = None.
Proof. vm_compute. repeat split; reflexivity. Qed.

Lemma parse_prefix_verbatim_witness :
  exists pre result,
    ":6HJ728W9+Q7" = pre +:+ ":" +:+ olc_portion ":6HJ728W9+Q7"
    /\ Py.count ":" pre = O
    /\ decode_olc (olc_portion ":6HJ728W9+Q7") = Ok result
    /\ decode_somalia_olc ":6HJ728W9+Q7" = Ok (Decoded.set_region_code pre result)
    /\ Decoded.region_code (Decoded.set_region_code pre result) = Some pre
    /\ (pre = "" ->
        Decoded.region_code (Decoded.set_region_code pre result) = Some ""
        /\ Decoded.region_code (Decoded.set_region_code pre result) <> None).
Proof.
  apply (parse_prefix_verbatim ":6HJ728W9+Q7"
           (StandardOlc.area_of (StandardOlc.ten_digits 2.0469 45.3182))).
  - vm_compute. discriminate.
  - vm_compute. reflexivity.
Defined.

(** A prefix that is empty, and one that is no region code at all. *)
Example parse_odd_prefixes :
  match decode_somalia_olc ":6HJ728W9+Q7" with
  | Ok decoded => Decoded.region_code decoded
  | Raise _ => None
  end = Some ""
  /\ match decode_somalia_olc "not a region:6HJ728W9+Q7" with
     | Ok decoded => Decoded.region_code decoded
     | Raise _ => None
     end = Some "not a region".
Proof. split; vm_compute; reflexivity. Qed.

End OnReferenceCodec.

(** * Further properties of the location codes *)

Section LocationCodeEndpoints.
Context `{OpenLocationCode}.

(** X1.  Resolving the code that the generate endpoint hands out gives the very
    same response, whatever the codec. *)
Theorem generate_then_resolve lat lon r :
  generate_location_code lat lon = Success r ->
  resolve_location_code (LocationCodeResponse.code r) = Success r.
Proof.
  unfold generate_location_code, resolve_location_code.
  destruct (valid_coords_b lat lon); [|discriminate]. simpl.
  destruct (generate_somalia_olc lat lon None) as [code|e]; [|discriminate].
  destruct (decode_somalia_olc code) as [decoded|e] eqn:Hdec; [|discriminate].
  intros [= <-]. simpl. by rewrite Hdec.
Qed.

(** X2.  What a parse returns can be joined back into the code that was parsed:
    the [code] entry is the part handed to the codec, and the region code,
    when there is one, is the text in front of the first ":". *)
Theorem parse_rejoin code decoded :
  decode_somalia_olc code = Ok decoded ->
  Decoded.code decoded = olc_portion code
  /\ match Decoded.region_code decoded with
     | Some region_part => region_part +:+ ":" +:+ Decoded.code decoded
     | None => Decoded.code decoded
     end = code.
Proof.
  destruct (Nat.eq_dec (Py.count ":" code) O) as [Hc|Hc].
  - rewrite decode_somalia_olc_plain, olc_portion_plain by assumption.
    unfold decode_olc. destruct (olc_decode code); [|discriminate].
    by intros [= <-].
  - destruct (first_occurrence _ _ Hc) as (pre & rest & -> & Hpre).
    change (pre +:+ String ":" rest) with (pre +:+ ":" +:+ rest).
    rewrite decode_somalia_olc_prefixed, olc_portion_prefixed by assumption.
    unfold decode_olc. destruct (olc_decode rest); [|discriminate].
    by intros [= <-].
Qed.

Lemma append_assoc_string (a b c : string) : (a +:+ b) +:+ c = a +:+ (b +:+ c).
Proof.
  induction a as [|x a IH]; [reflexivity|].
  change (String x ((a +:+ b) +:+ c) = String x (a +:+ (b +:+ c))).
  by rewrite IH.
Qed.

(** The codes of the table are free of ":". *)
Lemma located_code_colon_free lat lon region :
  _get_region_from_coords lat lon = Some region ->
  Py.count ":" ("SOM-" +:+ region) = O.
Proof.
  unfold _get_region_from_coords, regions. simpl.
  repeat (destruct (Bounds.holds _ lat lon); [by intros [= <-]|]).
  discriminate.
Qed.

(** What the generate endpoint answers in range, for a codec that meets the
    contract. *)
Lemma generate_location_code_in_range :
  encode_accepts_range -> decode_encode_contains -> decode_rejects_colon ->
  forall lat lon,
    valid_coords lat lon ->
    exists base area,
      olc_encode lat lon None = Ok base
      /\ olc_decode base = Ok area
      /\ cell_contains area lat lon
      /\ generate_location_code lat lon
         = Success
             {| LocationCodeResponse.code := generated_code lat lon base;
                LocationCodeResponse.latitude_center := CodeArea.latitudeCenter area;
                LocationCodeResponse.longitude_center := CodeArea.longitudeCenter area;
                LocationCodeResponse.region_code := generated_region_code lat lon |}.
Proof.
  intros Hacc Hround Hcolon lat lon Hv.
  destruct (Hacc lat lon Hv) as [base Henc].
  destruct (Hround lat lon base Hv Henc) as (area & Hdec & Hin).
  exists base, area. split; [exact Henc|]. split; [exact Hdec|]. split; [exact Hin|].
  unfold generate_location_code, generated_code, generated_region_code.
  apply valid_coords_b_spec in Hv. rewrite Hv. simpl.
  rewrite (generate_somalia_olc_inferred _ _ None base); [|by left|exact Henc].
  destruct (_get_region_from_coords lat lon) as [region|] eqn:Hloc.
  - rewrite <- append_assoc_string.
    rewrite decode_somalia_olc_prefixed by (by eapply located_code_colon_free).
    unfold decode_olc. by rewrite Hdec.
  - rewrite decode_somalia_olc_plain by (by eapply colon_free_when_decoded).
    unfold decode_olc. by rewrite Hdec.
Qed.

(** X3.  With a codec that meets the contract, the generate endpoint answers
    every point in range with a code: the code of the codec, behind
    "SOM-{R}:" when the locator finds [R]; the region code is then
    "SOM-{R}", and the center is the one of the cell of the codec's code,
    which holds the point.  The [except] branch is never taken: no point
    is answered with a 400. *)
Theorem generate_location_code_success :
  encode_accepts_range -> decode_encode_contains -> decode_rejects_colon ->
  forall lat lon,
    generate_location_code lat lon <> BadRequest
    /\ (valid_coords lat lon ->
        exists base area,
          olc_encode lat lon None = Ok base
          /\ olc_decode base = Ok area
          /\ cell_contains area lat lon
          /\ generate_location_code lat lon
             = Success
                 {| LocationCodeResponse.code := generated_code lat lon base;
                    LocationCodeResponse.latitude_center :=
                      CodeArea.latitudeCenter area;
                    LocationCodeResponse.longitude_center :=
                      CodeArea.longitudeCenter area;
                    LocationCodeResponse.region_code :=
                      generated_region_code lat lon |}).
Proof.
  intros Hacc Hround Hcolon lat lon.
  split; [|by apply generate_location_code_in_range].
  destruct (valid_coords_b lat lon) eqn:Hv.
  - apply valid_coords_b_spec in Hv.
    destruct (generate_location_code_in_range Hacc Hround Hcolon lat lon Hv)
      as (base & area & _ & _ & _ & ->).
    discriminate.
  - unfold generate_location_code. rewrite Hv. discriminate.
Qed.

(** X5.  A region code with a ":" gives a composed code that does not parse:
    the text behind the first ":" still has one, and the codec refuses it. *)
Theorem colon_in_region_code_unparseable :
  decode_rejects_colon ->
  forall lat lon region_code base,
    Py.count ":" region_code <> O ->
    olc_encode lat lon None = Ok base ->
    generate_somalia_olc lat lon (Some region_code)
    = Ok (region_code +:+ ":" +:+ base)
    /\ decode_somalia_olc (region_code +:+ ":" +:+ base) = Raise ValueError.
Proof.
  intros Hcolon lat lon region_code base Hc Henc.
  split.
  - apply generate_somalia_olc_supplied; [|exact Henc].
    intros ->. by apply Hc.
  - destruct (first_occurrence _ _ Hc) as (pre & post & -> & Hpre).
    rewrite append_assoc_string.
    change (String ":" post +:+ ":" +:+ base) with (":" +:+ (post +:+ ":" +:+ base)).
    rewrite decode_somalia_olc_prefixed by assumption.
    unfold decode_olc. rewrite Hcolon; [reflexivity|].
    rewrite contains_char_count, count_app. simpl.
    by destruct (Py.count ":" post).
Qed.

End LocationCodeEndpoints.

(** ** The boxes of the locator *)

Section LocatorBoxes.

Ltac box_facts :=
  repeat match goal with
         | H : Bounds.holds _ _ _ = true |- _ => apply holds_spec in H
         | H : Bounds.Holds _ _ _ |- _ =>
             unfold Bounds.Holds in H; simpl in H
         end.

Lemma located_in_table lat lon code :
  _get_region_from_coords lat lon = Some code ->
  exists bounds, In (code, bounds) regions /\ Bounds.Holds bounds lat lon.
Proof.
  intros (pre & bounds & post & Heq & Hin & _)%first_region_Some.
  exists bounds. split; [|exact Hin].
  rewrite Heq. apply in_or_app. right. by left.
Qed.

(** X6.  The three boxes share no point, so the order of the table decides
    nothing: a point is located in a region exactly when the box of that
    region holds it. *)
Theorem located_iff_in_box lat lon code :
  _get_region_from_coords lat lon = Some code <->
  exists bounds, In (code, bounds) regions /\ Bounds.Holds bounds lat lon.
Proof.
  split; [apply located_in_table|].
  intros (bounds & Hrow & Hin).
  unfold _get_region_from_coords, regions in *. simpl in Hrow.
  destruct Hrow as [[= <- <-]|[[= <- <-]|[[= <- <-]|[]]]]; simpl.
  - apply holds_spec in Hin. by rewrite Hin.
  - destruct (Bounds.holds (Bounds.mk 1.8 2.2 45.0 45.6) lat lon) eqn:H1;
      [box_facts; lra|].
    apply holds_spec in Hin. by rewrite Hin.
  - destruct (Bounds.holds (Bounds.mk 1.8 2.2 45.0 45.6) lat lon) eqn:H1;
      [box_facts; lra|].
    destruct (Bounds.holds (Bounds.mk 9.0 10.0 43.0 45.0) lat lon) eqn:H2;
      [box_facts; lra|].
    apply holds_spec in Hin. by rewrite Hin.
Qed.

(** X7.  A point that the locator places in a region has coordinates in range
    and lies inside the bounding boxes of Somalia that the loader, the
    filter script and the airport clean-up use. *)
Theorem located_points_in_somalia lat lon region :
  _get_region_from_coords lat lon = Some region ->
  valid_coords lat lon
  /\ LoadGeodata.is_in_somalia lat lon = true
  /\ FilterSomaliaData.is_in_somalia lat lon = true
  /\ CleanAirports.is_in_somalia_strict lat lon = true.
Proof.
  intros (bounds & Hrow & Hin)%located_in_table.
  assert ((1.8 <= lat /\ lat <= 10 /\ 42 <= lon /\ lon <= 45.6)%Q) as Hbox.
  { unfold regions in Hrow. simpl in Hrow.
    destruct Hrow as [[= <- <-]|[[= <- <-]|[[= <- <-]|[]]]];
      box_facts; repeat split; lra. }
  destruct Hbox as (H1 & H2 & H3 & H4).
  split; [unfold valid_coords; repeat split; lra|].
  unfold LoadGeodata.is_in_somalia, FilterSomaliaData.is_in_somalia,
    CleanAirports.is_in_somalia_strict.
  rewrite !andb_true_iff, !Qle_bool_iff.
  unfold FilterSomaliaData.SOMALIA_LAT_MIN, FilterSomaliaData.SOMALIA_LAT_MAX,
    FilterSomaliaData.SOMALIA_LON_MIN, FilterSomaliaData.SOMALIA_LON_MAX,
    CleanAirports.SOMALIA_LAT_MIN, CleanAirports.SOMALIA_LAT_MAX,
    CleanAirports.SOMALIA_LON_MIN, CleanAirports.SOMALIA_LON_MAX.
  repeat split; lra.
Qed.

Lemma located_points_in_somalia_witness :
  valid_coords 2.0469 45.3182
  /\ LoadGeodata.is_in_somalia 2.0469 45.3182 = true
  /\ FilterSomaliaData.is_in_somalia 2.0469 45.3182 = true
  /\ CleanAirports.is_in_somalia_strict 2.0469 45.3182 = true.
Proof.
  apply (located_points_in_somalia 2.0469 45.3182 "BNR").
  vm_compute. reflexivity.
Defined.

End LocatorBoxes.

(** * Further properties of the place search *)

Section SearchOrder.

Lemma List_filter_sublist {A} (f : A -> bool) (l : list A) :
  List.filter f l `sublist_of` l.
Proof.
  induction l as [|x l IH]; simpl; [constructor|].
  destruct (f x); [by apply sublist_skip|by apply sublist_cons].
Qed.

Lemma select_districts_sublist db q limit :
  Places.select_districts db q limit `sublist_of` district_table db.
Proof.
  unfold Places.select_districts, Sql.limit.
  etrans; [apply sublist_take|apply List_filter_sublist].
Qed.

Lemma regions_fetched_sublist db name limit :
  Places.regions_fetched db name limit `sublist_of` region_table db.
Proof.
  unfold Places.regions_fetched, Places.select_regions, Sql.limit.
  destruct (_ <? _); [|apply sublist_nil_l].
  etrans; [apply sublist_take|apply List_filter_sublist].
Qed.

Lemma keep_first_fmap {A} (f : A -> PlaceSearchResult.t) seen (l : list A) :
  exists l', Places.keep_first seen (f <$> l) = f <$> l' /\ l' `sublist_of` l.
Proof.
  revert seen. induction l as [|x l IH]; intros seen; simpl.
  - exists []. split; [reflexivity|constructor].
  - case_bool_decide.
    + destruct (IH seen) as (l' & Heq & Hsub).
      exists l'. split; [exact Heq|by apply sublist_cons].
    + destruct (IH (seen ∪ {[PlaceSearchResult.id (f x)]})) as (l' & Heq & Hsub).
      exists (x :: l'). split; [|by apply sublist_skip].
      simpl. f_equal. exact Heq.
Qed.

(** X8.  In the answer all districts come before all regions, and both keep the
    order of their tables: the answer is made of the results of some
    district rows, in table order, then of some region rows, in table
    order. *)
Theorem districts_before_regions db name limit :
  exists ds rs,
    PlacesSearchResponse.data (Places.search_places db name limit)
    = (Places.district_result <$> ds) ++ (Places.region_result <$> rs)
    /\ ds `sublist_of` district_table db
    /\ rs `sublist_of` region_table db.
Proof.
  rewrite search_places_data, after_districts_results.
  unfold Places.district_candidates.
  destruct (keep_first_fmap Places.district_result ∅
              (List.filter (Places.district_matches (Py.lower name))
                 (Places.select_districts db (Py.lower name) limit)))
    as (ds & -> & Hds).
  destruct (keep_first_fmap Places.region_result
              (Places.seen_ids (Places.after_districts db name limit))
              (Places.regions_fetched db name limit))
    as (rs & -> & Hrs).
  exists (take (Z.to_nat (Z.max 1 limit)) ds), rs.
  split; [by rewrite fmap_take|]. split.
  - etrans; [apply sublist_take|]. etrans; [exact Hds|].
    etrans; [apply List_filter_sublist|apply select_districts_sublist].
  - etrans; [exact Hrs|apply regions_fetched_sublist].
Qed.

(** ** The query *)

Lemma lower_char_upper_char c : Py.lower_char (Py.upper_char c) = Py.lower_char c.
Proof. destruct c as [[] [] [] [] [] [] [] []]; reflexivity. Qed.

Lemma lower_char_lower_char c : Py.lower_char (Py.lower_char c) = Py.lower_char c.
Proof. destruct c as [[] [] [] [] [] [] [] []]; reflexivity. Qed.

Lemma lower_upper s : Py.lower (Py.upper s) = Py.lower s.
Proof.
  induction s as [|c s IH]; simpl; [reflexivity|].
  by rewrite lower_char_upper_char, IH.
Qed.

Lemma lower_lower s : Py.lower (Py.lower s) = Py.lower s.
Proof.
  induction s as [|c s IH]; simpl; [reflexivity|].
  by rewrite lower_char_lower_char, IH.
Qed.

(** X9.  The case of the query does not matter: the query in upper case and the
    query in lower case get the answer of the query as typed. *)
Theorem query_case_insensitive db name limit :
  Places.search_places db (Py.upper name) limit = Places.search_places db name limit
  /\ Places.search_places db (Py.lower name) limit
     = Places.search_places db name limit.
Proof.
  unfold Places.search_places. by rewrite lower_upper, lower_lower.
Qed.

(** X10.  For a query without LIKE wildcards, every result has the query in its
    name or in its region name, letter case apart. *)
Theorem results_contain_query db name limit r :
  Sql.plain (Py.lower name) = true ->
  r ∈ PlacesSearchResponse.data (Places.search_places db name limit) ->
  Py.contains (Py.lower name) (Py.lower (PlaceSearchResult.name r))
  || Py.contains (Py.lower name) (Py.lower (PlaceSearchResult.region r)) = true.
Proof.
  intros Hq [(d & Hd & _ & ->)|(g & Hg & ->)]%search_result_origin.
  - unfold Places.select_districts, Sql.limit in Hd. from_take Hd.
    apply list_elem_of_In, filter_In in Hd as [_ Hd].
    unfold Sql.lower in Hd. rewrite !sql_contains_plain in Hd by assumption.
    exact Hd.
  - unfold Places.regions_fetched, Places.select_regions, Sql.limit in Hg.
    destruct (_ <? _); [|inversion Hg]. from_take Hg.
    apply list_elem_of_In, filter_In in Hg as [_ Hg].
    unfold Sql.lower in Hg. rewrite sql_contains_plain in Hg by assumption.
    simpl. by rewrite Hg.
Qed.

Lemma results_contain_query_witness :
  let db := {| district_table :=
                 [District.mk 1 "Mogadishu" "SOM-BNR-MOG" "Banadir" None
                    (Some ["Xamar"]) None 1];
               region_table := [Region.mk 1 "Banadir" "SOM-BNR" None None] |} in
  Forall (fun r =>
            Py.contains "banadir" (Py.lower (PlaceSearchResult.name r))
            || Py.contains "banadir" (Py.lower (PlaceSearchResult.region r)) = true)
    (PlacesSearchResponse.data (Places.search_places db "Banadir" 10)).
Proof.
  intros db. apply Forall_forall. intros r Hr.
  apply (results_contain_query db "Banadir" 10 r); [reflexivity|exact Hr].
Defined.

(** ** Queries that match every row *)

Lemma List_filter_all {A} (f : A -> bool) (l : list A) :
  (forall x, In x l -> f x = true) -> List.filter f l = l.
Proof.
  induction l as [|x l IH]; simpl; intros Hall; [reflexivity|].
  rewrite (Hall x) by (by left). f_equal. apply IH. intros y Hy. apply Hall. by right.
Qed.

Lemma List_filter_none {A} (f : A -> bool) (l : list A) :
  (forall x, In x l -> f x = false) -> List.filter f l = [].
Proof.
  induction l as [|x l IH]; simpl; intros Hall; [reflexivity|].
  rewrite (Hall x) by (by left). apply IH. intros y Hy. apply Hall. by right.
Qed.

Lemma sql_contains_empty column : Sql.contains column "" = true.
Proof. rewrite sql_contains_plain by reflexivity. by destruct column. Qed.

Lemma like_percent_cons p s :
  (forall t, Sql.like p t = true) -> Sql.like (String "%" p) s = true.
Proof. intros Hany. destruct s; simpl; by rewrite Hany. Qed.

Lemma sql_contains_percent column : Sql.contains column "%" = true.
Proof.
  unfold Sql.contains. change ("%" +:+ "%") with "%%".
  apply like_percent_cons. intros t.
  apply like_percent_cons. apply like_percent.
Qed.

Lemma district_matches_empty d : Places.district_matches "" d = true.
Proof. unfold Places.district_matches. by destruct (Py.lower (District.name d)). Qed.

(** X11.  The empty query is not refused and matches every row: the answer lists
    the first [limit] districts with distinct ids among the first
    [2 * limit] rows of the district table, [n] of them, and then those of
    the first [limit - n] regions whose code is not one of those ids. *)
Theorem empty_query_lists_the_tables db limit :
  1 <= limit ->
  let ds :=
    take (Z.to_nat limit)
      (Places.keep_first ∅
         (Places.district_result <$> take (Z.to_nat (limit * 2)) (district_table db))) in
  PlacesSearchResponse.data (Places.search_places db "" limit)
  = ds ++ Places.keep_first (list_to_set (Places.ids ds))
            (Places.region_result
               <$> take (Z.to_nat (limit - Z.of_nat (length ds))) (region_table db)).
Proof.
  intros Hlimit ds.
  assert (Places.select_districts db "" limit
          = take (Z.to_nat (limit * 2)) (district_table db)) as Hsel.
  { unfold Places.select_districts, Sql.limit. f_equal.
    apply List_filter_all. intros d _. by rewrite sql_contains_empty. }
  assert (Places.results (Places.after_districts db "" limit) = ds) as HD.
  { rewrite after_districts_results. unfold Places.district_candidates.
    change (Py.lower "") with "". rewrite Hsel.
    rewrite List_filter_all by (intros d _; apply district_matches_empty).
    by replace (Z.max 1 limit) with limit by lia. }
  rewrite search_places_data, (after_districts_seen db "" limit), HD.
  f_equal. f_equal. f_equal.
  unfold Places.regions_fetched, Places.len. rewrite HD.
  change (Py.lower "") with "".
  destruct (Z.ltb_spec (Z.of_nat (length ds)) limit) as [Hlt|Hge].
  - unfold Places.select_regions, Sql.limit. f_equal.
    apply List_filter_all. intros g _. apply sql_contains_empty.
  - replace (Z.to_nat (limit - Z.of_nat (length ds))) with O by lia.
    by rewrite take_0.
Qed.

Lemma empty_query_lists_the_tables_witness :
  let db := {| district_table :=
                 [District.mk 1 "Mogadishu" "SOM-BNR-MOG" "Banadir" None None None 1;
                  District.mk 2 "Afgooye" "SOM-SHB-AFG" "Lower Shabelle" None None None 2];
               region_table := [Region.mk 1 "Banadir" "SOM-BNR" None None] |} in
  Places.ids (PlacesSearchResponse.data (Places.search_places db "" 3))
  = ["SOM-BNR-MOG"; "SOM-SHB-AFG"; "SOM-BNR"].
Proof.
  intros db. rewrite (empty_query_lists_the_tables db 3) by lia.
  vm_compute. reflexivity.
Defined.

(** X12.  The wildcards of the query reach the region query, and its rows are
    not checked again: for the query "%", when no district carries a "%",
    the answer is the first [limit] regions of the table with distinct
    codes, whatever their names. *)
Theorem percent_query_lists_regions db limit :
  1 <= limit ->
  (forall d, In d (district_table db) -> Places.district_matches "%" d = false) ->
  PlacesSearchResponse.data (Places.search_places db "%" limit)
  = Places.keep_first ∅
      (Places.region_result <$> take (Z.to_nat limit) (region_table db)).
Proof.
  intros Hlimit Hnone.
  assert (Places.results (Places.after_districts db "%" limit) = []) as HD.
  { rewrite after_districts_results. unfold Places.district_candidates.
    change (Py.lower "%") with "%".
    rewrite List_filter_none; [simpl; apply take_nil|].
    intros d Hd. apply Hnone.
    assert (d ∈ district_table db) as Hin
      by (eapply elem_of_sublist;
          [by apply list_elem_of_In|apply select_districts_sublist]).
    by apply list_elem_of_In. }
  assert (Places.regions_fetched db "%" limit
          = take (Z.to_nat limit) (region_table db)) as HR.
  { unfold Places.regions_fetched, Places.len. rewrite HD.
    change (Z.of_nat (length [])) with 0.
    destruct (Z.ltb_spec 0 limit) as [_|]; [|lia].
    change (Py.lower "%") with "%".
    unfold Places.select_regions, Sql.limit. rewrite Z.sub_0_r. f_equal.
    apply List_filter_all. intros g _. apply sql_contains_percent. }
  rewrite search_places_data, (after_districts_seen db "%" limit), HD, HR.
  reflexivity.
Qed.

Lemma percent_query_lists_regions_witness :
  let db := {| district_table :=
                 [District.mk 1 "Mogadishu" "SOM-BNR-MOG" "Banadir" None None None 1];
               region_table := [Region.mk 1 "Banadir" "SOM-BNR" None None;
                                Region.mk 2 "Bay" "SOM-BAY" None None] |} in
  Places.ids (PlacesSearchResponse.data (Places.search_places db "%" 5))
  = ["SOM-BNR"; "SOM-BAY"].
Proof.
  intros db. rewrite (percent_query_lists_regions db 5).
  - vm_compute. reflexivity.
  - lia.
  - intros d [<-|[]]. vm_compute. reflexivity.
Defined.

(** ** Completeness on small tables *)

Lemma List_filter_filter_implied {A} (f g : A -> bool) (l : list A) :
  (forall x, g x = true -> f x = true) ->
  List.filter f (List.filter g l) = List.filter g l.
Proof.
  intros Himp. apply List_filter_all.
  intros x [_ Hx]%filter_In. by apply Himp.
Qed.

Lemma district_matches_has_query q d :
  district_has_query q d = true -> Places.district_matches q d = true.
Proof.
  unfold district_has_query, Places.district_matches. by intros ->.
Qed.

Lemma keep_first_length seen cands :
  (length (Places.keep_first seen cands) <= length cands)%nat.
Proof. apply sublist_length, keep_first_sublist. Qed.

(** X13.  For a query without LIKE wildcards, when the rows that carry the query
    in a name (districts by name or region name, regions by name) are no
    more than [limit], none of them is missed: the id of each such district
    and the code of each such region is the id of a result. *)
Theorem small_table_complete db name limit :
  Sql.plain (Py.lower name) = true ->
  Z.of_nat (length (List.filter (district_has_query (Py.lower name)) (district_table db))
            + length (List.filter (region_has_query (Py.lower name)) (region_table db)))
    <= limit ->
  (forall d,
     In d (district_table db) ->
     district_has_query (Py.lower name) d = true ->
     Places.district_id d
       ∈ Places.ids (PlacesSearchResponse.data (Places.search_places db name limit)))
  /\ (forall g,
        In g (region_table db) ->
        region_has_query (Py.lower name) g = true ->
        Region.code g
          ∈ Places.ids (PlacesSearchResponse.data (Places.search_places db name limit))).
Proof.
  set (q := Py.lower name). intros Hq Hsmall.
  set (dm := List.filter (district_has_query q) (district_table db)) in *.
  set (rm := List.filter (region_has_query q) (region_table db)) in *.
  assert (Places.select_districts db q limit = dm) as Hsel.
  { unfold Places.select_districts, Sql.limit.
    rewrite (filter_ext _ (district_has_query q));
      [|intros d; unfold Sql.lower, district_has_query;
        by rewrite !sql_contains_plain].
    apply take_ge. fold dm. lia. }
  assert (Places.district_candidates db name limit = Places.district_result <$> dm)
    as Hcands.
  { unfold Places.district_candidates. fold q. rewrite Hsel. unfold dm.
    by rewrite (List_filter_filter_implied _ _ _ (district_matches_has_query q)). }
  assert (Places.results (Places.after_districts db name limit)
          = Places.keep_first ∅ (Places.district_result <$> dm)) as HD.
  { rewrite after_districts_results, Hcands. apply take_ge.
    pose proof (keep_first_length ∅ (Places.district_result <$> dm)) as Hlen.
    rewrite length_fmap in Hlen. lia. }
  assert (forall g, In g rm ->
            Places.regions_fetched db name limit = rm) as HR.
  { intros g Hg. unfold Places.regions_fetched, Places.len. rewrite HD.
    pose proof (keep_first_length ∅ (Places.district_result <$> dm)) as Hlen.
    rewrite length_fmap in Hlen.
    assert (length rm <> O) as Hrm by (destruct rm; [inversion Hg|discriminate]).
    destruct (Z.ltb_spec
                (Z.of_nat (length (Places.keep_first ∅ (Places.district_result <$> dm))))
                limit) as [Hlt|Hge]; [|lia].
    fold q. unfold Places.select_regions, Sql.limit.
    rewrite (filter_ext _ (region_has_query q));
      [|intros r; unfold Sql.lower, region_has_query;
        by rewrite sql_contains_plain].
    apply take_ge. fold rm. lia. }
  rewrite search_places_data. unfold Places.ids. rewrite fmap_app. split.
  - intros d Hd Hmatch. apply elem_of_app. left. rewrite HD.
    assert (Places.district_result d ∈ Places.district_result <$> dm) as Hin.
    { apply list_elem_of_fmap_2, list_elem_of_In, filter_In. by split. }
    destruct (keep_first_cover ∅ _ _ Hin) as [Hempty|Hseen]; [set_solver|exact Hseen].
  - intros g Hg Hmatch. apply elem_of_app.
    assert (In g rm) as Hgm by (apply filter_In; by split).
    rewrite (HR g Hgm).
    assert (Places.region_result g ∈ Places.region_result <$> rm) as Hin
      by (by apply list_elem_of_fmap_2, list_elem_of_In).
    destruct (keep_first_cover
                (Places.seen_ids (Places.after_districts db name limit)) _ _ Hin)
      as [Hseen|Hnew]; [|by right].
    left. rewrite (after_districts_seen db name limit) in Hseen.
    by apply elem_of_list_to_set in Hseen.
Qed.

Lemma small_table_complete_witness :
  let db := {| district_table :=
                 [District.mk 1 "Mogadishu" "SOM-BNR-MOG" "Banadir" None None None 1;
                  District.mk 2 "Afgooye" "SOM-SHB-AFG" "Lower Shabelle" None None None 2];
               region_table := [Region.mk 1 "Banadir" "SOM-BNR" None None] |} in
  "SOM-BNR"
    ∈ Places.ids (PlacesSearchResponse.data (Places.search_places db "BANADIR" 2)).
Proof.
  intros db.
  apply (small_table_complete db "BANADIR" 2)
    with (g := Region.mk 1 "Banadir" "SOM-BNR" None None).
  - reflexivity.
  - vm_compute. discriminate.
  - by left.
  - reflexivity.
Defined.

End SearchOrder.

(** * Properties of the loader and the clean-up scripts *)

Section SomaliaBoxes.

(** X14.  The loader and the airport clean-up use the same box.  The box of the
    filter script is wider except to the east: a point the loader admits
    survives the filter script exactly when its longitude is at most
    51.417. *)
Theorem somalia_boxes lat lon :
  LoadGeodata.is_in_somalia lat lon = CleanAirports.is_in_somalia_strict lat lon
  /\ (LoadGeodata.is_in_somalia lat lon = true ->
      (FilterSomaliaData.is_in_somalia lat lon = true <-> (lon <= 51.417)%Q)).
Proof.
  split; [reflexivity|].
  unfold LoadGeodata.is_in_somalia, FilterSomaliaData.is_in_somalia,
    FilterSomaliaData.SOMALIA_LAT_MIN, FilterSomaliaData.SOMALIA_LAT_MAX,
    FilterSomaliaData.SOMALIA_LON_MIN, FilterSomaliaData.SOMALIA_LON_MAX.
  rewrite !andb_true_iff, !Qle_bool_iff.
  intros [[H1 H2] [H3 H4]]. split.
  - intros [_ [_ H]]. exact H.
  - intros H. repeat split; lra.
Qed.

Lemma somalia_boxes_witness :
  LoadGeodata.is_in_somalia 11.28 51.45 = true
  /\ FilterSomaliaData.is_in_somalia 11.28 51.45 = false.
Proof.
  split; [reflexivity|].
  destruct (somalia_boxes 11.28 51.45) as [_ Hiff]. specialize (Hiff eq_refl).
  destruct (FilterSomaliaData.is_in_somalia 11.28 51.45); [|reflexivity].
  exfalso. destruct Hiff as [Hto _]. specialize (Hto eq_refl).
  revert Hto. unfold Qle. simpl. lia.
Defined.

End SomaliaBoxes.

Section LoaderCodes.

Lemma slice_to_short n s : (String.length s <= n)%nat -> Py.slice_to n s = s.
Proof.
  unfold Py.slice_to. revert n. induction s as [|c s IH]; intros n Hn.
  - by destruct n.
  - destruct n as [|n]; simpl in *; [lia|]. rewrite IH by lia. reflexivity.
Qed.

Lemma slice_to_length n s : (String.length (Py.slice_to n s) <= n)%nat.
Proof.
  unfold Py.slice_to. revert n. induction s as [|c s IH]; intros n.
  - destruct n; simpl; lia.
  - destruct n as [|n]; simpl; [lia|]. specialize (IH n). lia.
Qed.

Lemma upper_length s : String.length (Py.upper s) = String.length s.
Proof. induction s as [|c s IH]; simpl; [reflexivity|]. by rewrite IH. Qed.

Lemma append_length s t :
  String.length (s +:+ t) = (String.length s + String.length t)%nat.
Proof. induction s as [|c s IH]; simpl; [reflexivity|]. by rewrite IH. Qed.

(** The two branches of the loader's expression agree. *)
Lemma generated_district_code_eq name region_name :
  LoadGeodata.generated_district_code name region_name
  = "SOM-" +:+ Py.upper (Py.slice_to 3 region_name)
    +:+ "-" +:+ Py.upper (Py.slice_to 3 name).
Proof.
  unfold LoadGeodata.generated_district_code.
  destruct (Nat.leb_spec 3 (String.length name)) as [Hlong|Hshort]; [reflexivity|].
  rewrite (slice_to_short 3 name) by lia. reflexivity.
Qed.

(** X15.  For a district without a code, search reports as id the very code that
    the loader generates for a district that comes without one. *)
Theorem search_id_is_loader_code (d : District.t) :
  District.code d = "" ->
  Places.district_id d
  = LoadGeodata.generated_district_code (District.name d) (District.region_name d).
Proof.
  intros Hcode. rewrite generated_district_code_eq.
  unfold Places.district_id. by rewrite Hcode.
Qed.

Lemma search_id_is_loader_code_witness :
  Places.district_id (District.mk 7 "Bu" "" "Bay" None None None 3)
  = LoadGeodata.generated_district_code "Bu" "Bay".
Proof.
  apply (search_id_is_loader_code (District.mk 7 "Bu" "" "Bay" None None None 3)).
  reflexivity.
Defined.

(** X16.  A district that the loader keeps (name and region name present) is
    stored with a non-empty code, the one of the source or the generated
    one, so search reports the stored code as its id. *)
Theorem loaded_district_has_code code name region_name :
  LoadGeodata.district_is_loaded name region_name = true ->
  exists stored,
    LoadGeodata.district_code code name region_name = Some stored
    /\ stored <> ""
    /\ (forall d, District.code d = stored -> Places.district_id d = stored).
Proof.
  unfold LoadGeodata.district_is_loaded, LoadGeodata.district_code.
  destruct name as [[|a name]|]; try discriminate.
  destruct region_name as [[|b region_name]|]; try discriminate.
  intros _. simpl.
  assert (forall stored, stored <> "" ->
            forall d, District.code d = stored -> Places.district_id d = stored)
    as Hid.
  { intros stored Hne d Hd. unfold Places.district_id. rewrite Hd.
    by destruct stored. }
  destruct code as [[|c code]|]; simpl; eexists; (split; [reflexivity|]).
  - rewrite generated_district_code_eq. split; [discriminate|].
    apply Hid. discriminate.
  - split; [discriminate|]. apply Hid. discriminate.
  - rewrite generated_district_code_eq. split; [discriminate|].
    apply Hid. discriminate.
Qed.

Lemma loaded_district_has_code_witness :
  exists stored,
    LoadGeodata.district_code None (Some "Baidoa") (Some "Bay") = Some stored
    /\ stored <> ""
    /\ (forall d, District.code d = stored -> Places.district_id d = stored).
Proof.
  apply (loaded_district_has_code None (Some "Baidoa") (Some "Bay")).
  reflexivity.
Defined.

Lemma isascii_upper s : PyStr.isascii (Py.upper s) = PyStr.isascii s.
Proof.
  induction s as [|c s IH]; [reflexivity|].
  cbn [Py.upper PyStr.isascii]. rewrite IH. f_equal.
  destruct c as [[] [] [] [] [] [] [] []]; vm_compute; reflexivity.
Qed.

Lemma isascii_slice_to n s :
  PyStr.isascii s = true -> PyStr.isascii (Py.slice_to n s) = true.
Proof.
  unfold Py.slice_to. revert n.
  induction s as [|c s IH]; intros n Hs; [by destruct n|].
  destruct n as [|n]; [reflexivity|].
  cbn [PyStr.isascii] in Hs. apply andb_true_iff in Hs as [Hc Hs].
  cbn [String.substring PyStr.isascii]. rewrite Hc. by apply IH.
Qed.

Lemma isascii_append s t :
  PyStr.isascii (s +:+ t) = PyStr.isascii s && PyStr.isascii t.
Proof.
  induction s as [|c s IH]; [reflexivity|].
  change (String c s +:+ t) with (String c (s +:+ t)).
  cbn [PyStr.isascii]. by rewrite IH, andb_assoc.
Qed.

(** X17.  For names in ASCII, where [str.upper] keeps the length, the
    generated codes fit their columns: a region code is an ASCII string of
    at most 7 characters (the column takes 10) and a district code one of
    at most 11 (the column takes 20). *)
Theorem generated_codes_fit name region_name :
  PyStr.isascii name = true ->
  PyStr.isascii region_name = true ->
  ((String.length (LoadGeodata.generated_region_code name) <= 7)%nat
   /\ PyStr.isascii (LoadGeodata.generated_region_code name) = true)
  /\ ((String.length (LoadGeodata.generated_district_code name region_name) <= 11)%nat
      /\ PyStr.isascii (LoadGeodata.generated_district_code name region_name) = true).
Proof.
  intros Hname Hregion. split; split.
  - unfold LoadGeodata.generated_region_code.
    destruct (Nat.leb_spec 3 (String.length name)) as [Hlong|Hshort];
      rewrite append_length, upper_length; simpl.
    + pose proof (slice_to_length 3 name). lia.
    + lia.
  - unfold LoadGeodata.generated_region_code.
    destruct (3 <=? String.length name)%nat;
      rewrite isascii_append, isascii_upper, ?isascii_slice_to by exact Hname;
      by rewrite ?Hname.
  - rewrite generated_district_code_eq.
    rewrite !append_length, !upper_length. simpl.
    pose proof (slice_to_length 3 name). pose proof (slice_to_length 3 region_name).
    lia.
  - rewrite generated_district_code_eq.
    rewrite !isascii_append, !isascii_upper.
    rewrite (isascii_slice_to 3 name Hname),
      (isascii_slice_to 3 region_name Hregion).
    reflexivity.
Qed.

Lemma generated_codes_fit_witness :
  (String.length (LoadGeodata.generated_region_code "Banadir") <= 7)%nat
  /\ PyStr.isascii (LoadGeodata.generated_region_code "Banadir") = true.
Proof.
  apply (generated_codes_fit "Banadir" "Banadir"); reflexivity.
Defined.

End LoaderCodes.

(** * Properties of the listing endpoints *)

Section ListingFacts.

Lemma page_length {A} skip limit (rows : list A) :
  0 <= limit -> Z.of_nat (length (SqlPage.page skip limit rows)) <= limit.
Proof.
  intros Hl. unfold SqlPage.page, Sql.limit. rewrite length_take. lia.
Qed.

Lemma page_sublist {A} skip limit (rows : list A) :
  SqlPage.page skip limit rows `sublist_of` rows.
Proof.
  unfold SqlPage.page, Sql.limit, SqlPage.offset.
  etrans; [apply sublist_take|apply sublist_drop].
Qed.

Lemma page_tiles {A} skip a b (rows : list A) :
  0 <= skip -> 0 <= a -> 0 <= b ->
  SqlPage.page skip a rows ++ SqlPage.page (skip + a) b rows
  = SqlPage.page skip (a + b) rows.
Proof.
  intros Hs Ha Hb. unfold SqlPage.page, Sql.limit, SqlPage.offset.
  replace (Z.to_nat (skip + a)) with (Z.to_nat skip + Z.to_nat a)%nat by lia.
  replace (Z.to_nat (a + b)) with (Z.to_nat a + Z.to_nat b)%nat by lia.
  change (@skipn A) with (@drop A).
  rewrite <- drop_drop. apply take_take_drop.
Qed.

Lemma page_all {A} limit (rows : list A) :
  Z.of_nat (length rows) <= limit -> SqlPage.page 0 limit rows = rows.
Proof.
  intros Hl. unfold SqlPage.page, Sql.limit, SqlPage.offset. simpl.
  apply take_ge. lia.
Qed.

Lemma where_region_sublist region rows :
  Districts.where_region region rows `sublist_of` rows.
Proof.
  unfold Districts.where_region.
  destruct (Py.when_truthy region); [apply List_filter_sublist|reflexivity].
Qed.

(** X18.  One page of districts: at most [limit] rows, taken in table order; with
    a region asked for, every row is of that region and [count] is the
    number of districts of that region in the whole table; without one, or
    with the empty string, nothing is filtered and [count] is the size of
    the table. *)
Theorem read_districts_page db skip limit region :
  0 <= limit ->
  let answer := Districts.read_districts db skip limit region in
  Z.of_nat (length (DistrictsPublic.data answer)) <= limit
  /\ DistrictsPublic.data answer `sublist_of` district_table db
  /\ (forall name,
        region = Some name -> name <> "" ->
        (forall d, d ∈ DistrictsPublic.data answer -> District.region_name d = name)
        /\ DistrictsPublic.count answer
           = Z.of_nat (length (List.filter
                                 (fun d => String.eqb (District.region_name d) name)
                                 (district_table db))))
  /\ (region = None \/ region = Some "" ->
      DistrictsPublic.data answer = SqlPage.page skip limit (district_table db)
      /\ DistrictsPublic.count answer = Z.of_nat (length (district_table db))).
Proof.
  intros Hl answer. unfold answer, Districts.read_districts. simpl.
  split; [by apply page_length|].
  split; [etrans; [apply page_sublist|apply where_region_sublist]|].
  split.
  - intros name -> Hne. unfold Districts.where_region.
    rewrite (when_truthy_nonempty name Hne). split; [|reflexivity].
    intros d Hd. eapply elem_of_sublist in Hd; [|apply page_sublist].
    apply list_elem_of_In, filter_In in Hd as [_ Hd].
    by apply String.eqb_eq.
  - intros [->| ->]; by split.
Qed.

Lemma read_districts_page_witness :
  let db := {| district_table :=
                 [District.mk 1 "Mogadishu" "SOM-BNR-MOG" "Banadir" None None None 1;
                  District.mk 2 "Afgooye" "SOM-SHB-AFG" "Lower Shabelle" None None None 2];
               region_table := [] |} in
  Z.of_nat (length (DistrictsPublic.data
                      (Districts.read_districts db 0 1 (Some "Banadir")))) <= 1.
Proof.
  intros db. apply (read_districts_page db 0 1 (Some "Banadir")). lia.
Defined.

(** X19.  Consecutive pages tile the listing: the page of [a] rows from [skip]
    followed by the page of [b] rows from [skip + a] is the page of [a + b]
    rows from [skip], and asking for [count] rows from the start gives every
    row that [count] counts. *)
Theorem read_districts_pages_tile db skip a b region :
  0 <= skip -> 0 <= a -> 0 <= b ->
  DistrictsPublic.data (Districts.read_districts db skip a region)
  ++ DistrictsPublic.data (Districts.read_districts db (skip + a) b region)
  = DistrictsPublic.data (Districts.read_districts db skip (a + b) region)
  /\ Z.of_nat (length (DistrictsPublic.data
                        (Districts.read_districts db 0
                           (DistrictsPublic.count
                              (Districts.read_districts db skip a region))
                           region)))
     = DistrictsPublic.count (Districts.read_districts db skip a region).
Proof.
  intros Hs Ha Hb. unfold Districts.read_districts. simpl.
  split; [by apply page_tiles|].
  by rewrite page_all.
Qed.

Lemma read_districts_pages_tile_witness :
  let db := {| district_table :=
                 [District.mk 1 "Mogadishu" "SOM-BNR-MOG" "Banadir" None None None 1;
                  District.mk 2 "Afgooye" "SOM-SHB-AFG" "Lower Shabelle" None None None 2;
                  District.mk 3 "Marka" "SOM-SHB-MRK" "Lower Shabelle" None None None 2];
               region_table := [] |} in
  DistrictsPublic.data (Districts.read_districts db 0 1 None)
  ++ DistrictsPublic.data (Districts.read_districts db (0 + 1) 2 None)
  = DistrictsPublic.data (Districts.read_districts db 0 (1 + 2) None).
Proof.
  intros db. apply (read_districts_pages_tile db 0 1 2 None); lia.
Defined.

(** ** Fetching by id *)

Lemma find_by_id {A} (key : A -> Z) (rows : list A) (x : A) :
  NoDup (key <$> rows) -> x ∈ rows ->
  List.find (fun r => key r =? key x) rows = Some x.
Proof.
  induction rows as [|r rows IH]; simpl; intros Hnd Hx; [inversion Hx|].
  apply NoDup_cons in Hnd as [Hr Hnd].
  destruct (Z.eqb_spec (key r) (key x)) as [Heq|Hne].
  - apply elem_of_cons in Hx as [->|Hx]; [reflexivity|].
    exfalso. apply Hr. rewrite Heq. by apply list_elem_of_fmap_2.
  - apply elem_of_cons in Hx as [->|Hx]; [congruence|]. by apply IH.
Qed.

(** X20.  With ids that are unique (the primary key), every district that a
    listing shows is the one that the by-id endpoint returns for its id. *)
Theorem listed_district_can_be_fetched db skip limit region d :
  NoDup (District.id <$> district_table db) ->
  d ∈ DistrictsPublic.data (Districts.read_districts db skip limit region) ->
  Districts.read_district db (District.id d) = Found d.
Proof.
  intros Hnd Hd. unfold Districts.read_districts in Hd. simpl in Hd.
  eapply elem_of_sublist in Hd;
    [|etrans; [apply page_sublist|apply where_region_sublist]].
  unfold Districts.read_district, Districts.get.
  by rewrite (find_by_id District.id _ d Hnd Hd).
Qed.

Lemma listed_district_can_be_fetched_witness :
  let d := District.mk 2 "Afgooye" "SOM-SHB-AFG" "Lower Shabelle" None None None 2 in
  let db := {| district_table :=
                 [District.mk 1 "Mogadishu" "SOM-BNR-MOG" "Banadir" None None None 1; d];
               region_table := [] |} in
  Districts.read_district db 2 = Found d.
Proof.
  intros d db.
  apply (listed_district_can_be_fetched db 1 5 None d).
  - simpl. apply NoDup_cons. split; [|apply NoDup_singleton].
    intros Hin%list_elem_of_singleton. discriminate.
  - vm_compute. left.
Defined.

(** X21.  The by-id endpoints answer with a row of the table that has the id
    asked for, and with the 404 exactly when no row has it. *)
Theorem read_by_id_answers db i :
  (forall d, Districts.read_district db i = Found d ->
             d ∈ district_table db /\ District.id d = i)
  /\ ((exists detail, Districts.read_district db i = NotFound detail)
      <-> i ∉ District.id <$> district_table db)
  /\ (forall r, Regions.read_region db i = Found r ->
                r ∈ region_table db /\ Region.id r = i)
  /\ ((exists detail, Regions.read_region db i = NotFound detail)
      <-> i ∉ Region.id <$> region_table db).
Proof.
  unfold Districts.read_district, Districts.get, Regions.read_region, Regions.get.
  split; [|split; [|split]].
  - destruct (List.find _ _) as [d'|] eqn:Hf; [|discriminate].
    intros d [= <-]. apply find_some in Hf as [Hin Hid].
    split; [by apply list_elem_of_In|by apply Z.eqb_eq].
  - destruct (List.find _ (district_table db)) as [d'|] eqn:Hf.
    + apply find_some in Hf as [Hin Hid]. apply Z.eqb_eq in Hid. split.
      * intros [detail Hd]. discriminate.
      * intros Hno. exfalso. apply Hno. rewrite <- Hid.
        by apply list_elem_of_fmap_2, list_elem_of_In.
    + split; [|by eexists].
      intros _ (d & -> & Hd)%list_elem_of_fmap.
      apply list_elem_of_In in Hd.
      pose proof (find_none _ _ Hf d Hd) as Hne. simpl in Hne.
      by rewrite Z.eqb_refl in Hne.
  - destruct (List.find _ (region_table db)) as [r'|] eqn:Hf; [|discriminate].
    intros r [= <-]. apply find_some in Hf as [Hin Hid].
    split; [by apply list_elem_of_In|by apply Z.eqb_eq].
  - destruct (List.find _ (region_table db)) as [r'|] eqn:Hf.
    + apply find_some in Hf as [Hin Hid]. apply Z.eqb_eq in Hid. split.
      * intros [detail Hd]. discriminate.
      * intros Hno. exfalso. apply Hno. rewrite <- Hid.
        by apply list_elem_of_fmap_2, list_elem_of_In.
    + split; [|by eexists].
      intros _ (r & -> & Hr)%list_elem_of_fmap.
      apply list_elem_of_In in Hr.
      pose proof (find_none _ _ Hf r Hr) as Hne. simpl in Hne.
      by rewrite Z.eqb_refl in Hne.
Qed.

(** ** The type filter of the airports *)

Lemma bad_type_spec type :
  Transport.bad_type type = true
  <-> Py.lower type <> "international" /\ Py.lower type <> "domestic".
Proof.
  unfold Transport.bad_type.
  rewrite negb_true_iff, orb_false_iff, !String.eqb_neq. tauto.
Qed.

(** X22.  With a type asked for, the request is refused with a 400 exactly when
    the type in lower case is neither "international" nor "domestic";
    otherwise every airport listed has exactly the lower-case type as its
    stored type, and [count] counts the airports stored with it.  The case
    of the type asked for is of no account. *)
Theorem read_airports_type_filter airports skip limit type :
  type <> "" ->
  (Transport.read_airports airports skip limit (Some type) = BadRequest
   <-> Py.lower type <> "international" /\ Py.lower type <> "domestic")
  /\ (forall answer,
        Transport.read_airports airports skip limit (Some type) = Success answer ->
        (forall a, a ∈ AirportsPublic.data answer ->
                   Airport.type a = Py.lower type
                   /\ (Airport.type a = "international"
                       \/ Airport.type a = "domestic"))
        /\ AirportsPublic.count answer
           = Z.of_nat (length (List.filter
                                 (fun a => String.eqb (Airport.type a) (Py.lower type))
                                 airports)))
  /\ Transport.read_airports airports skip limit (Some (Py.upper type))
     = Transport.read_airports airports skip limit (Some type).
Proof.
  intros Hne. unfold Transport.read_airports, Transport.where_type.
  rewrite (when_truthy_nonempty type Hne).
  split; [|split].
  - rewrite <- bad_type_spec. destruct (Transport.bad_type type); split;
      (reflexivity || discriminate || done).
  - intros answer. destruct (Transport.bad_type type) eqn:Hbad; [discriminate|].
    intros [= <-]. simpl. split; [|reflexivity].
    intros a Ha. eapply elem_of_sublist in Ha; [|apply page_sublist].
    apply list_elem_of_In, filter_In in Ha as [_ Ha].
    apply String.eqb_eq in Ha. split; [exact Ha|].
    unfold Transport.bad_type in Hbad.
    apply negb_false_iff, orb_true_iff in Hbad as [Hb|Hb];
      apply String.eqb_eq in Hb; rewrite Ha, Hb; [by left|by right].
  - assert (Py.upper type <> "") as Hup by (by destruct type).
    rewrite (when_truthy_nonempty _ Hup).
    unfold Transport.bad_type. by rewrite lower_upper.
Qed.

Lemma read_airports_type_filter_witness :
  let airports :=
    [Airport.mk 1 "Aden Adde" (Some "MGQ") (Some "HCMM") "international"
       2.0144 45.3047 "Banadir";
     Airport.mk 2 "Baidoa" (Some "BIB") None "Domestic" 3.1 43.63 "Bay"] in
  Transport.read_airports airports 0 100 (Some "Military") = BadRequest
  <-> Py.lower "Military" <> "international" /\ Py.lower "Military" <> "domestic".
Proof.
  intros airports.
  apply (read_airports_type_filter airports 0 100 "Military"). discriminate.
Defined.

(** An airport stored as "Domestic" is not listed under the filter
    "domestic", nor under any other accepted filter. *)
Example capitalised_type_not_listed :
  let airports :=
    [Airport.mk 2 "Baidoa" (Some "BIB") None "Domestic" 3.1 43.63 "Bay"] in
  Transport.read_airports airports 0 100 (Some "domestic")
  = Success {| AirportsPublic.data := []; AirportsPublic.count := 0 |}.
Proof. reflexivity. Qed.

End ListingFacts.

(** * The clean-up run of [filter_somalia_data.py] *)

Section FilterRun.
Import FilterSomaliaData.

Lemma List_filter_true {A} (l : list A) : List.filter (fun _ => true) l = l.
Proof. induction l as [|x l IH]; simpl; [reflexivity|by rewrite IH]. Qed.

Lemma List_filter_and {A} (f g : A -> bool) (l : list A) :
  List.filter f (List.filter g l) = List.filter (fun x => g x && f x) l.
Proof.
  induction l as [|x l IH]; simpl; [reflexivity|].
  destruct (g x); simpl; [destruct (f x)|]; by rewrite IH.
Qed.

Lemma List_filter_split {A} (f : A -> bool) (l : list A) :
  (length (List.filter f l) + length (List.filter (fun x => negb (f x)) l)
   = length l)%nat.
Proof.
  induction l as [|x l IH]; simpl; [reflexivity|].
  destruct (f x); simpl; lia.
Qed.

(** The loop deletes the rows whose key is the key of a row outside the
    box, and counts the rows outside the box. *)
Lemma filter_loop_spec airports table removed :
  filter_loop airports (table, removed)
  = (List.filter
       (fun a => forallb (fun b => stays b || negb (Airport.id a =? Airport.id b))
                         airports)
       table,
     removed + Z.of_nat (length (List.filter (fun b => negb (stays b)) airports))).
Proof.
  revert table removed.
  induction airports as [|b rest IH]; intros table removed.
  - cbn [filter_loop forallb List.filter length].
    rewrite List_filter_true. f_equal. lia.
  - cbn [filter_loop forallb List.filter fst snd].
    destruct (stays b) eqn:Hb; cbn [negb orb].
    + rewrite IH. reflexivity.
    + rewrite IH. unfold delete. rewrite List_filter_and.
      cbn [length]. f_equal. lia.
Qed.

Lemma same_key_same_row (table : list Airport.t) a b :
  NoDup (Airport.id <$> table) -> a ∈ table -> b ∈ table ->
  Airport.id a = Airport.id b -> a = b.
Proof.
  intros Hnd Ha Hb Hid.
  apply list_elem_of_lookup in Ha as [i Hi].
  apply list_elem_of_lookup in Hb as [j Hj].
  assert (i = j) as ->.
  { eapply NoDup_lookup; [exact Hnd| |].
    - rewrite list_lookup_fmap, Hi. reflexivity.
    - rewrite list_lookup_fmap, Hj. simpl. by rewrite Hid. }
  congruence.
Qed.

Lemma filter_airports_unique_keys table :
  NoDup (Airport.id <$> table) ->
  filter_airports table
  = (List.filter stays table, Z.of_nat (length (List.filter stays table))).
Proof.
  intros Hnd. unfold filter_airports. rewrite filter_loop_spec.
  f_equal.
  - apply filter_ext_in. intros a Ha. apply list_elem_of_In in Ha.
    destruct (stays a) eqn:Hs.
    + apply forallb_forall. intros b Hb. apply list_elem_of_In in Hb.
      destruct (Z.eqb_spec (Airport.id a) (Airport.id b)) as [Hid|Hid].
      * rewrite <- (same_key_same_row table a b Hnd Ha Hb Hid), Hs. reflexivity.
      * apply orb_true_r.
    + apply not_true_is_false. intros Hall.
      rewrite forallb_forall in Hall.
      specialize (Hall a (proj1 (list_elem_of_In _ _) Ha)).
      rewrite Hs, Z.eqb_refl in Hall. done.
  - pose proof (List_filter_split stays table). lia.
Qed.

(** X23.  With unique primary keys, [filter_airports] leaves exactly the
    rows inside the box, in their order, and returns their number; a
    second run removes nothing and returns the same number. *)
Theorem filter_airports_keeps_the_box table :
  NoDup (Airport.id <$> table) ->
  let run := filter_airports table in
  run.1 = List.filter stays table
  /\ run.2 = Z.of_nat (length run.1)
  /\ (forall a, a ∈ run.1 ->
        is_in_somalia (Airport.latitude a) (Airport.longitude a) = true)
  /\ filter_airports run.1 = run.
Proof.
  intros Hnd run. subst run.
  rewrite (filter_airports_unique_keys table Hnd). cbn [fst snd].
  split; [reflexivity|]. split; [reflexivity|]. split.
  - intros a Ha. apply list_elem_of_In, filter_In in Ha as [_ Ha]. exact Ha.
  - rewrite filter_airports_unique_keys.
    + rewrite List_filter_and.
      rewrite (filter_ext (fun x => stays x && stays x) stays);
        [reflexivity|intros x; apply andb_diag].
    + eapply sublist_NoDup; [exact Hnd|].
      apply fmap_sublist, List_filter_sublist.
Qed.

End FilterRun.

Lemma filter_airports_keeps_the_box_witness :
  let table :=
    [Airport.mk 1 "Aden Adde" (Some "MGQ") (Some "HCMM") "international"
       2.0144 45.3047 "Banadir";
     Airport.mk 2 "Jomo Kenyatta" (Some "NBO") (Some "HKJK") "international"
       (-1.3192) 36.9278 "Nairobi"] in
  NoDup (Airport.id <$> table)
  /\ (FilterSomaliaData.filter_airports table).2
     = Z.of_nat (length (FilterSomaliaData.filter_airports table).1).
Proof.
  intros table.
  assert (Hnd : NoDup (Airport.id <$> table)).
  { apply (bool_decide_unpack _). vm_compute. reflexivity. }
  split; [exact Hnd|].
  apply (filter_airports_keeps_the_box table Hnd).
Defined.

(** * The loader's field lookup, [normalize_field] *)

Section FieldLookup.
Import LoadGeodata.
Context {V : Type}.

(** X24.  [normalize_field] returns the value of the first variation that
    is a key of the properties, whatever that value is and whatever the
    later variations hold; it returns the default when no
    variation is a key. *)
Theorem normalize_field_first_key (props : props V) before key after value default :
  (forall k, k ∈ before -> props !! k = None) ->
  props !! key = Some value ->
  normalize_field props (before ++ key :: after) default = value
  /\ normalize_field props before default = default.
Proof.
  intros Hbefore Hkey.
  induction before as [|k before IH]; cbn [app normalize_field].
  - rewrite Hkey. split; reflexivity.
  - rewrite (Hbefore k) by apply list_elem_of_here.
    apply IH. intros k' Hk'. apply Hbefore. by apply list_elem_of_further.
Qed.

End FieldLookup.

Lemma normalize_field_first_key_witness :
  let props : props string := {[ "NAME" := ""; "region" := "Bari" ]} in
  LoadGeodata.normalize_field props ["name"; "NAME"; "region"; "REGION"] "?" = ""
  /\ LoadGeodata.normalize_field props ["name"] "?" = "?".
Proof.
  intros props.
  apply (normalize_field_first_key props ["name"] "NAME" ["region"; "REGION"] "" "?").
  - intros k Hk. apply list_elem_of_singleton in Hk as ->. reflexivity.
  - reflexivity.
Defined.

(** * Region names and codes of [download_real_data.py] *)

Section RegionNames.
Import DownloadRealData.

Lemma lower_title_from b s : Py.lower (PyStr.title_from b s) = Py.lower s.
Proof.
  revert b. induction s as [|c s IH]; intros b; [reflexivity|].
  cbn [PyStr.title_from Py.lower]. rewrite IH.
  destruct b; by rewrite ?lower_char_lower_char, ?lower_char_upper_char.
Qed.

Lemma title_char_twice (b : bool) c :
  let t := if b then Py.lower_char c else Py.upper_char c in
  (if b then Py.lower_char t else Py.upper_char t) = t
  /\ PyStr.is_cased t = PyStr.is_cased c.
Proof.
  destruct b; destruct c as [[] [] [] [] [] [] [] []]; vm_compute; split; reflexivity.
Qed.

Lemma title_from_twice b s :
  PyStr.title_from b (PyStr.title_from b s) = PyStr.title_from b s.
Proof.
  revert b. induction s as [|c s IH]; intros b; [reflexivity|].
  cbn [PyStr.title_from].
  destruct (title_char_twice b c) as [-> ->].
  by rewrite IH.
Qed.

(** The entries of the two dict literals. *)
Lemma region_name_entry key canonical :
  REGION_NAME_MAPPINGS !! key = Some canonical ->
  canonical ∈ ["Banadir"; "Hiiraan"; "Hirshabelle"; "Shabelle"; "Lower Shabelle";
               "Jubaland"; "Somaliland"; "Puntland"; "Galmudug"; "South West"].
Proof.
  intros Hkey. apply elem_of_list_to_map_2 in Hkey.
  repeat (apply elem_of_cons in Hkey as [[= _ ->]|Hkey];
          [apply (bool_decide_unpack _); vm_compute; reflexivity|]).
  by apply elem_of_nil in Hkey.
Qed.

Lemma code_entry name code :
  code_mappings !! name = Some code ->
  (name, code) ∈ [ ("Banadir", "SOM-BNR"); ("Hiiraan", "SOM-HRS");
                   ("Hirshabelle", "SOM-HSH"); ("Shabelle", "SOM-SHB");
                   ("Lower Shabelle", "SOM-LSH"); ("Jubaland", "SOM-JBL");
                   ("Somaliland", "SOM-SML"); ("Puntland", "SOM-PTL");
                   ("Galmudug", "SOM-GLD"); ("South West", "SOM-SWS") ].
Proof. apply elem_of_list_to_map_2. Qed.

Ltac each_member H :=
  repeat (apply elem_of_cons in H as [->|H]); [..|by apply elem_of_nil in H].

(** X25.  [normalize_region_name] is idempotent: a canonical name and a
    title-cased unknown name are both mapped to themselves. *)
Theorem normalize_region_name_idempotent name :
  normalize_region_name (normalize_region_name name) = normalize_region_name name.
Proof.
  unfold normalize_region_name at 2 3.
  destruct (REGION_NAME_MAPPINGS !! PyStr.strip (Py.lower name))
    as [canonical|] eqn:Hkey; cbn [default].
  - apply region_name_entry in Hkey. each_member Hkey; vm_compute; reflexivity.
  - unfold normalize_region_name, PyStr.title.
    rewrite lower_title_from, Hkey. cbn [default].
    apply title_from_twice.
Qed.

(** X26.  Every canonical name of [REGION_NAME_MAPPINGS] is normalised to
    itself and has its own entry in [code_mappings]: two recognised names
    get the same region code only when they are normalised to the same
    canonical name. *)
Theorem recognised_names_get_table_codes key canonical :
  REGION_NAME_MAPPINGS !! key = Some canonical ->
  normalize_region_name canonical = canonical
  /\ code_mappings !! canonical = Some (generate_region_code canonical)
  /\ (forall key' canonical',
        REGION_NAME_MAPPINGS !! key' = Some canonical' ->
        generate_region_code canonical = generate_region_code canonical' ->
        canonical = canonical').
Proof.
  intros Hkey. apply region_name_entry in Hkey.
  split; [|split].
  - each_member Hkey; vm_compute; reflexivity.
  - each_member Hkey; vm_compute; reflexivity.
  - intros key' canonical' Hkey' Hcode. apply region_name_entry in Hkey'.
    each_member Hkey; each_member Hkey';
      first [reflexivity | vm_compute in Hcode; discriminate Hcode].
Qed.

Lemma recognised_names_get_table_codes_witness :
  REGION_NAME_MAPPINGS !! "lower juba" = Some "Jubaland"
  /\ code_mappings !! "Jubaland" = Some (generate_region_code "Jubaland").
Proof.
  split; [reflexivity|].
  apply (recognised_names_get_table_codes "lower juba" "Jubaland"). reflexivity.
Defined.

(** X27.  A prefix the locator infers is the region code that
    [generate_region_code] gives one of the canonical region names. *)
Theorem located_code_is_a_region_code lat lon code :
  generated_region_code lat lon = Some code ->
  exists key name,
    REGION_NAME_MAPPINGS !! key = Some name /\ generate_region_code name = code.
Proof.
  unfold generated_region_code.
  destruct (_get_region_from_coords lat lon) as [region|] eqn:Hregion; [|done].
  intros [= <-].
  apply located_in_table in Hregion as (bounds & Hrow & _).
  apply list_elem_of_In in Hrow. unfold regions in Hrow.
  repeat (apply elem_of_cons in Hrow as [[= -> _]|Hrow]);
    [..|by apply elem_of_nil in Hrow].
  - exists "banadir", "Banadir". split; reflexivity.
  - exists "hiiraan", "Hiiraan". split; reflexivity.
  - exists "shabelle", "Shabelle". split; reflexivity.
Qed.

Lemma located_code_is_a_region_code_witness :
  generated_region_code 2.0144 45.3047 = Some "SOM-BNR"
  /\ exists key name,
       REGION_NAME_MAPPINGS !! key = Some name
       /\ generate_region_code name = "SOM-BNR".
Proof.
  split; [reflexivity|].
  apply (located_code_is_a_region_code 2.0144 45.3047). reflexivity.
Defined.

Lemma generated_region_code_eq name :
  LoadGeodata.generated_region_code name = "SOM-" +:+ Py.upper (Py.slice_to 3 name).
Proof.
  unfold LoadGeodata.generated_region_code.
  destruct (Nat.leb_spec 3 (String.length name)) as [Hlen|Hlen]; [reflexivity|].
  rewrite slice_to_short by lia. reflexivity.
Qed.

(** X28.  The loader's generated region code is the fallback of
    [generate_region_code], so the two scripts give a region the same
    code exactly when its name has no entry in [code_mappings]; the length
    test of the loader makes no difference. *)
Theorem loader_code_is_the_fallback name :
  LoadGeodata.generated_region_code name = "SOM-" +:+ Py.upper (Py.slice_to 3 name)
  /\ (generate_region_code name = LoadGeodata.generated_region_code name
      <-> code_mappings !! name = None).
Proof.
  split; [apply generated_region_code_eq|].
  rewrite generated_region_code_eq. unfold generate_region_code.
  destruct (code_mappings !! name) as [code|] eqn:Hname; cbn [default].
  - split; [|done]. intros Heq. exfalso.
    apply code_entry in Hname.
    repeat (apply elem_of_cons in Hname as [[= -> ->]|Hname];
            [vm_compute in Heq; discriminate Heq|]).
    by apply elem_of_nil in Hname.
  - split; reflexivity.
Qed.

End RegionNames.

(** * Status codes of the location code endpoints *)

Section EndpointStatus.
Context `{OpenLocationCode}.

(** X29.  The resolve endpoint answers 400 exactly when the codec refuses
    the part of the code after the first ":" (the whole code when there is
    none), and never 422; a successful answer repeats the code as it was
    given, carries the centre of the cell the codec decoded, and has a
    region code exactly when the code has a ":". *)
Theorem resolve_location_code_answers code :
  (resolve_location_code code = BadRequest
   <-> fails (olc_decode (olc_portion code)))
  /\ resolve_location_code code <> UnprocessableEntity
  /\ forall r,
       resolve_location_code code = Success r ->
       LocationCodeResponse.code r = code
       /\ (exists area,
             olc_decode (olc_portion code) = Ok area
             /\ LocationCodeResponse.latitude_center r
                = CodeArea.latitudeCenter area
             /\ LocationCodeResponse.longitude_center r
                = CodeArea.longitudeCenter area)
       /\ (LocationCodeResponse.region_code r = None <-> Py.count ":" code = O).
Proof.
  unfold resolve_location_code.
  destruct (Nat.eq_dec (Py.count ":" code) O) as [Hc|Hc].
  - rewrite decode_somalia_olc_plain, olc_portion_plain by assumption.
    unfold decode_olc, fails.
    destruct (olc_decode code) as [area|e].
    + split; [split; [discriminate|intros [e He]; discriminate]|].
      split; [discriminate|].
      intros r [= <-]. cbn. split; [reflexivity|].
      split; [by exists area|]. by split.
    + split; [split; [by exists e|reflexivity]|].
      split; [discriminate|]. intros r Hr. discriminate Hr.
  - destruct (first_occurrence _ _ Hc) as (pre & rest & Hcode & Hpre).
    rewrite Hcode in *.
    change (pre +:+ String ":" rest) with (pre +:+ ":" +:+ rest) in *.
    rewrite decode_somalia_olc_prefixed, olc_portion_prefixed by assumption.
    unfold decode_olc, fails.
    destruct (olc_decode rest) as [area|e].
    + split; [split; [discriminate|intros [e He]; discriminate]|].
      split; [discriminate|].
      intros r [= <-]. cbn. split; [reflexivity|].
      split; [by exists area|]. split; [discriminate|contradiction].
    + split; [split; [by exists e|reflexivity]|].
      split; [discriminate|]. intros r Hr. discriminate Hr.
Qed.

(** X30.  The generate endpoint answers 422 exactly when a coordinate is
    out of range, whatever the codec does: in range the answer is a body
    or a 400, out of range the codec is not reached. *)
Theorem generate_location_code_unprocessable lat lon :
  generate_location_code lat lon = UnprocessableEntity <-> ~ valid_coords lat lon.
Proof.
  unfold generate_location_code.
  destruct (valid_coords_b lat lon) eqn:Hv; cbn [negb].
  - apply valid_coords_b_spec in Hv. split; [|contradiction].
    destruct (generate_somalia_olc lat lon None) as [code|e]; [|discriminate].
    destruct (decode_somalia_olc code); discriminate.
  - split; [|reflexivity]. intros _ Hvalid.
    apply valid_coords_b_spec in Hvalid. congruence.
Qed.

End EndpointStatus.

(** * The further statements on the reference codec *)

Section ExtrasOnReferenceCodec.
Local Existing Instance StandardOlc.codec.

(** The cells of the ten-digit codes are 1/8000 of a degree high and wide. *)
Lemma standard_cells_within : default_cells_within 0.000125.
Proof.
  intros lat lon code area Hv Henc Hdec. simpl in Henc, Hdec.
  rewrite (encode_default _ _ Hv) in Henc. injection Henc as <-.
  pose proof Hv as (Hlat1 & Hlat2 & Hlon1 & Hlon2).
  pose proof (lat_value_range lat Hlat1) as Ha.
  pose proof (lng_value_range lon Hlon1) as Hb.
  assert (0 <= StandardOlc.lat_value lat / 3125 < 1440000) as Ha'
    by (Z.div_mod_to_equations; lia).
  assert (0 <= StandardOlc.lng_value lon / 1024 < 2880000) as Hb'
    by (Z.div_mod_to_equations; lia).
  unfold StandardOlc.ten_digits in Hdec.
  rewrite decode_render_ten, area_of_ten in Hdec by lia.
  injection Hdec as <-. simpl.
  unfold StandardOlc.degrees, StandardOlc.lat_units, StandardOlc.lng_units, Qdiv.
  change (/ inject_Z 25000000)%Q with (1 # 25000000)%Q.
  change (/ inject_Z 8192000)%Q with (1 # 8192000)%Q.
  rewrite !inject_Z_plus.
  change (inject_Z 3125) with 3125%Q. change (inject_Z 1024) with 1024%Q.
  split; lra.
Qed.

Lemma generate_then_resolve_witness :
  exists r,
    generate_location_code 2.0144 45.3047 = Success r
    /\ resolve_location_code (LocationCodeResponse.code r) = Success r.
Proof.
  destruct (generate_location_code 2.0144 45.3047) as [r| |] eqn:Hgen;
    [|vm_compute in Hgen; discriminate..].
  exists r. split; [reflexivity|].
  exact (generate_then_resolve 2.0144 45.3047 r Hgen).
Defined.

Lemma parse_rejoin_witness :
  exists decoded,
    decode_somalia_olc "SOM-BNR:6HJ72873+QV" = Ok decoded
    /\ Decoded.code decoded = olc_portion "SOM-BNR:6HJ72873+QV"
    /\ match Decoded.region_code decoded with
       | Some region_part => region_part +:+ ":" +:+ Decoded.code decoded
       | None => Decoded.code decoded
       end = "SOM-BNR:6HJ72873+QV".
Proof.
  destruct (decode_somalia_olc "SOM-BNR:6HJ72873+QV") as [decoded|e] eqn:Hdec;
    [|vm_compute in Hdec; discriminate].
  exists decoded. split; [reflexivity|].
  exact (parse_rejoin "SOM-BNR:6HJ72873+QV" decoded Hdec).
Defined.

Lemma generate_location_code_success_witness :
  generate_location_code 2.0144 45.3047 <> BadRequest
  /\ (valid_coords 2.0144 45.3047 ->
      exists base area,
        olc_encode 2.0144 45.3047 None = Ok base
        /\ olc_decode base = Ok area
        /\ cell_contains area 2.0144 45.3047
        /\ generate_location_code 2.0144 45.3047
           = Success
               {| LocationCodeResponse.code := generated_code 2.0144 45.3047 base;
                  LocationCodeResponse.latitude_center :=
                    CodeArea.latitudeCenter area;
                  LocationCodeResponse.longitude_center :=
                    CodeArea.longitudeCenter area;
                  LocationCodeResponse.region_code :=
                    generated_region_code 2.0144 45.3047 |}).
Proof.
  apply (generate_location_code_success
           standard_accepts_range standard_decode_encode standard_rejects_colon).
Defined.

(** The answer to the request of the API test: the code, and the region
    code read back from it. *)
Example generate_location_code_example :
  match generate_location_code 2.0144 45.3047 with
  | Success r => Some (LocationCodeResponse.code r, LocationCodeResponse.region_code r)
  | _ => None
  end = Some ("SOM-BNR:6HJ72873+QV", Some "SOM-BNR").
Proof. vm_compute. reflexivity. Qed.

Lemma colon_in_region_code_unparseable_witness :
  generate_somalia_olc 2.0144 45.3047 (Some "SOM:BNR")
  = Ok ("SOM:BNR" +:+ ":" +:+ "6HJ72873+QV")
  /\ decode_somalia_olc ("SOM:BNR" +:+ ":" +:+ "6HJ72873+QV") = Raise ValueError.
Proof.
  apply (colon_in_region_code_unparseable standard_rejects_colon).
  - vm_compute. discriminate.
  - vm_compute. reflexivity.
Defined.

End ExtrasOnReferenceCodec.

(** * The codec of the package *)

Section PackageRange.
Import PackageOlc.

Ltac q_tests :=
  repeat match goal with
         | H : Qle_bool _ _ = true |- _ => apply Qle_bool_iff in H
         | H : Qle_bool _ _ = false |- _ =>
             apply not_true_iff_false in H; rewrite Qle_bool_iff in H;
             apply Qnot_le_lt in H
         end.

Lemma clipLatitude_range latitude :
  (-90 <= clipLatitude latitude /\ clipLatitude latitude <= 90)%Q.
Proof.
  unfold clipLatitude.
  destruct (Qle_bool latitude (-90)) eqn:Hlow;
    [destruct (Qle_bool 90 (-90)) eqn:Hhigh
    |destruct (Qle_bool 90 latitude) eqn:Hhigh];
    q_tests; split; lra.
Qed.

Lemma clipLatitude_in_range latitude :
  (-90 <= latitude)%Q -> (latitude <= 90)%Q -> (clipLatitude latitude == latitude)%Q.
Proof.
  intros H1 H2. unfold clipLatitude.
  destruct (Qle_bool latitude (-90)) eqn:Hlow;
    [destruct (Qle_bool 90 (-90)) eqn:Hhigh
    |destruct (Qle_bool 90 latitude) eqn:Hhigh];
    q_tests; lra.
Qed.

Lemma add_turns_done n longitude :
  (-180 <= longitude)%Q -> add_turns n longitude = longitude.
Proof.
  intros Hlow%Qle_bool_iff. destruct n; [reflexivity|]. simpl. by rewrite Hlow.
Qed.

Lemma drop_turns_done n longitude :
  (longitude < 180)%Q -> drop_turns n longitude = longitude.
Proof.
  intros Hhigh. destruct n; [reflexivity|]. simpl.
  destruct (Qle_bool 180 longitude) eqn:Htest; [|reflexivity].
  q_tests. lra.
Qed.

(** The first loop ends in the range when it is given rounds enough. *)
Lemma add_turns_range n longitude :
  (-180 - 360 * inject_Z (Z.of_nat n) <= longitude)%Q ->
  (longitude < 180)%Q ->
  (-180 <= add_turns n longitude /\ add_turns n longitude < 180)%Q.
Proof.
  revert longitude. induction n as [|n IH]; intros longitude Hfuel Hhigh.
  - cbn [add_turns]. change (inject_Z (Z.of_nat 0)) with 0%Q in Hfuel.
    split; lra.
  - cbn [add_turns].
    destruct (Qle_bool (-180) longitude) eqn:Htest; q_tests; [split; lra|].
    rewrite Nat2Z.inj_succ, <- Z.add_1_r, inject_Z_plus in Hfuel.
    change (inject_Z 1) with 1%Q in Hfuel.
    apply IH; lra.
Qed.

(** And so does the second. *)
Lemma drop_turns_range n longitude :
  (longitude < 180 + 360 * inject_Z (Z.of_nat n))%Q ->
  (-180 <= longitude)%Q ->
  (-180 <= drop_turns n longitude /\ drop_turns n longitude < 180)%Q.
Proof.
  revert longitude. induction n as [|n IH]; intros longitude Hfuel Hlow.
  - cbn [drop_turns]. change (inject_Z (Z.of_nat 0)) with 0%Q in Hfuel.
    split; lra.
  - cbn [drop_turns].
    destruct (Qle_bool 180 longitude) eqn:Htest; q_tests; [|split; lra].
    rewrite Nat2Z.inj_succ, <- Z.add_1_r, inject_Z_plus in Hfuel.
    change (inject_Z 1) with 1%Q in Hfuel.
    apply IH; lra.
Qed.

Lemma turns_enough longitude :
  (-180 - 360 * inject_Z (Z.of_nat (turns longitude)) <= longitude
   /\ longitude < 180 + 360 * inject_Z (Z.of_nat (turns longitude)))%Q.
Proof.
  unfold turns.
  set (q := ((longitude + 180) / 360)%Q).
  assert (Hq : (q * 360 == longitude + 180)%Q) by (unfold q; field).
  pose proof (Qfloor_le q) as Hlow.
  pose proof (Qlt_floor q) as Hhigh.
  rewrite inject_Z_plus in Hhigh. change (inject_Z 1) with 1%Q in Hhigh.
  rewrite Z2Nat.id by apply Z.abs_nonneg.
  assert (Habs : (inject_Z (Qfloor q) <= inject_Z (Z.abs (Qfloor q))
                  /\ - inject_Z (Qfloor q) <= inject_Z (Z.abs (Qfloor q)))%Q).
  { rewrite <- inject_Z_opp, <- !Zle_Qle. lia. }
  clearbody q. destruct Habs as [Ha1 Ha2].
  set (f := inject_Z (Qfloor q)) in *. set (k := inject_Z (Z.abs (Qfloor q))) in *.
  clearbody f k. split; nra.
Qed.

(** The two loops of [normalizeLongitude] end, with a longitude from
    -180 up to, but not including, 180. *)
Lemma normalizeLongitude_range longitude :
  (-180 <= normalizeLongitude longitude /\ normalizeLongitude longitude < 180)%Q.
Proof.
  unfold normalizeLongitude.
  destruct (turns_enough longitude) as [Hup Hdown].
  destruct (Qlt_le_dec longitude (-180)) as [Hout|Hin].
  - destruct (add_turns_range _ _ Hup ltac:(lra)) as [H1 H2].
    rewrite drop_turns_done by exact H2. split; assumption.
  - rewrite add_turns_done by exact Hin.
    by apply drop_turns_range.
Qed.

Lemma normalizeLongitude_in_range longitude :
  (-180 <= longitude)%Q -> (longitude < 180)%Q ->
  normalizeLongitude longitude = longitude.
Proof.
  intros Hlow Hhigh. unfold normalizeLongitude.
  rewrite add_turns_done by exact Hlow. by apply drop_turns_done.
Qed.

(** The meridian 180 is turned into the meridian -180. *)
Lemma normalizeLongitude_180 longitude :
  (longitude == 180)%Q -> (normalizeLongitude longitude == -180)%Q.
Proof.
  intros Heq. unfold normalizeLongitude.
  assert (turns longitude = 1%nat) as ->.
  { unfold turns. rewrite Heq. reflexivity. }
  rewrite add_turns_done by lra. cbn [drop_turns].
  destruct (Qle_bool 180 longitude) eqn:Htest; q_tests; lra.
Qed.

Lemma package_point_valid lat lon :
  valid_coords (clipLatitude lat) (normalizeLongitude lon).
Proof.
  destruct (clipLatitude_range lat) as [H1 H2].
  destruct (normalizeLongitude_range lon) as [H3 H4].
  unfold valid_coords. repeat split; lra.
Qed.


End PackageRange.

Section EndpointOfCode.
Context `{OpenLocationCode}.

(** What the generate endpoint answers once the codec has given a point in
    range a code that it decodes. *)
Lemma generate_location_code_of_code lat lon base area :
  decode_rejects_colon ->
  valid_coords lat lon ->
  olc_encode lat lon None = Ok base ->
  olc_decode base = Ok area ->
  generate_location_code lat lon
  = Success
      {| LocationCodeResponse.code := generated_code lat lon base;
         LocationCodeResponse.latitude_center := CodeArea.latitudeCenter area;
         LocationCodeResponse.longitude_center := CodeArea.longitudeCenter area;
         LocationCodeResponse.region_code := generated_region_code lat lon |}.
Proof.
  intros Hcolon Hv Henc Hdec.
  unfold generate_location_code, generated_code, generated_region_code.
  apply valid_coords_b_spec in Hv. rewrite Hv. simpl.
  rewrite (generate_somalia_olc_inferred _ _ None base); [|by left|exact Henc].
  destruct (_get_region_from_coords lat lon) as [region|] eqn:Hloc.
  - rewrite <- append_assoc_string.
    rewrite decode_somalia_olc_prefixed by (by eapply located_code_colon_free).
    unfold decode_olc. by rewrite Hdec.
  - rewrite decode_somalia_olc_plain by (by eapply colon_free_when_decoded).
    unfold decode_olc. by rewrite Hdec.
Qed.

End EndpointOfCode.

Section OnPackageCodec.
Import PackageOlc.
Local Existing Instance PackageOlc.codec.

(** The package encodes every point, as the point it turns it into, and
    decodes the code to a cell of 1/8000 of a degree that holds that
    point and its own center. *)
Lemma package_encode lat lon :
  exists code area,
    olc_encode lat lon None = Ok code
    /\ olc_decode code = Ok area
    /\ cell_contains area (clipLatitude lat) (normalizeLongitude lon)
    /\ cell_contains area (CodeArea.latitudeCenter area)
         (CodeArea.longitudeCenter area)
    /\ (CodeArea.latitudeHi area - CodeArea.latitudeLo area <= 0.000125
        /\ CodeArea.longitudeHi area - CodeArea.longitudeLo area <= 0.000125)%Q.
Proof.
  pose proof (package_point_valid lat lon) as Hv.
  destruct (standard_accepts_range _ _ Hv) as [code Henc].
  destruct (standard_decode_encode _ _ code Hv Henc) as (area & Hdec & Hin).
  exists code, area.
  split; [exact Henc|]. split; [exact Hdec|]. split; [exact Hin|].
  split; [exact (standard_center_inside code area Hdec)|].
  exact (standard_cells_within _ _ code area Hv Henc Hdec).
Qed.

Lemma package_rejects_colon : decode_rejects_colon.
Proof. exact standard_rejects_colon. Qed.




(** C10, as stated, fails at its own example: "8FJ53PM+" has the
    separator behind seven digits, the codec refuses it, and the parse
    fails before a region code is set. *)
Lemma parse_empty_prefix_counterexample :
  olc_decode "8FJ53PM+" = Raise ValueError
  /\ decode_somalia_olc ":8FJ53PM+" = Raise ValueError.
Proof. split; vm_compute; reflexivity. Qed.

(** X4.  On the codec of the package, the center that the generate
    endpoint reports is within 0.000125 of the latitude asked for, and
    within 0.000125 of the longitude asked for when that is below 180;
    for the longitude 180, which the endpoint admits, the center is
    within 0.000125 of -180. *)
Theorem generate_location_code_center_near lat lon r :
  generate_location_code lat lon = Success r ->
  (lat - 0.000125 <= LocationCodeResponse.latitude_center r
   /\ LocationCodeResponse.latitude_center r <= lat + 0.000125)%Q
  /\ ((lon < 180)%Q ->
      (lon - 0.000125 <= LocationCodeResponse.longitude_center r
       /\ LocationCodeResponse.longitude_center r <= lon + 0.000125)%Q)
  /\ ((lon == 180)%Q ->
      (-180 - 0.000125 <= LocationCodeResponse.longitude_center r
       /\ LocationCodeResponse.longitude_center r <= -180 + 0.000125)%Q).
Proof.
  intros Hgen.
  destruct (valid_coords_b lat lon) eqn:Hv;
    [|unfold generate_location_code in Hgen; rewrite Hv in Hgen; discriminate].
  apply valid_coords_b_spec in Hv.
  destruct (package_encode lat lon)
    as (code & area & Henc & Hdec & Hin & Hcenter & Hh & Hw).
  rewrite (generate_location_code_of_code lat lon code area
             package_rejects_colon Hv Henc Hdec) in Hgen.
  injection Hgen as <-. cbn [LocationCodeResponse.latitude_center
                             LocationCodeResponse.longitude_center].
  destruct Hv as (Hv1 & Hv2 & Hv3 & Hv4).
  pose proof (clipLatitude_in_range lat Hv1 Hv2) as Hlat.
  destruct Hin as (Hi1 & Hi2 & Hi3 & Hi4).
  destruct Hcenter as (Hc1 & Hc2 & Hc3 & Hc4).
  split; [split; lra|]. split.
  - intros Hlt. rewrite (normalizeLongitude_in_range lon Hv3 Hlt) in Hi3, Hi4.
    split; lra.
  - intros Heq. pose proof (normalizeLongitude_180 lon Heq) as Hlon.
    split; lra.
Qed.

Lemma generate_location_code_center_near_witness :
  exists r,
    generate_location_code 2.0144 45.3047 = Success r
    /\ (2.0144 - 0.000125 <= LocationCodeResponse.latitude_center r
        /\ LocationCodeResponse.latitude_center r <= 2.0144 + 0.000125)%Q.
Proof.
  destruct (generate_location_code 2.0144 45.3047) as [r| |] eqn:Hgen;
    [|vm_compute in Hgen; discriminate..].
  exists r. split; [reflexivity|].
  exact (proj1 (generate_location_code_center_near 2.0144 45.3047 r Hgen)).
Defined.

(** On the meridian 180 the endpoint answers with a center on the other
    side of the globe. *)
Example generate_location_code_meridian_180 :
  match generate_location_code 0 180 with
  | Success r =>
      (LocationCodeResponse.longitude_center r == -179.9999375)%Q
      /\ LocationCodeResponse.code r = "62G22222+22"
  | _ => False
  end.
Proof. vm_compute. split; reflexivity. Qed.

End OnPackageCodec.
